(** * Ecommerce API (FastAPI + MongoDB): a shallow embedding of [main.py]

    The handlers of [main.py] are embedded as functions in a small
    state-and-exception monad over a model of the two MongoDB collections.

    What is modelled, and how:
    - Python [int] is [Z]; Python [float] is the kernel's binary64 [float],
      with [+] and [*] the IEEE operations; the implicit [int -> float]
      conversion of [float * int] is correctly rounded and raises
      [OverflowError] when the integer is too large.
    - Python [str] is [string]; f-strings are concatenations.
    - Exceptions are values of [exn]; [try/except] is [try_except].
    - The store is a pair of lists of documents in insertion order, plus the
      trace of the calls made to it.  The store is reliable: calls never fail
      for reasons of connectivity.  The driver encodes an integer in at
      most 8 bytes and raises [OverflowError] on a larger one, before
      anything is sent to the store.
    - [bson.ObjectId] is an interface ([ObjectIdOps]); the development is
      generic in it, and [hex_oid] is the 24-hex-digit instance.
    - FastAPI's request validation ([Query(ge=..., le=...)], pydantic field
      constraints) runs before a handler and answers 422 on failure, unless
      the 422 body cannot be rendered as JSON (it holds the offending input,
      and NaN and the infinities are refused), in which case the answer is
      500.  The rendering of a returned model as JSON is not modelled. *)

From Stdlib Require Import ZArith String Ascii List Bool Sorted Lia.
From Stdlib Require Import Floats Uint63.
From stdpp Require Import base option list gmap strings.

Local Open Scope string_scope.
Local Open Scope list_scope.
Local Open Scope Z_scope.

(** ** Python values *)

(** [float(z)] as performed by [float * int]: round to nearest even;
    [None] stands for [OverflowError: int too large to convert to float]. *)
Definition float_of_int (z : Z) : option float :=
  match binary_normalize prec emax z 0 false with
  | S754_infinity _ => None
  | sf => Some (SF2Prim sf)
  end.

Definition overflow_msg : string := "int too large to convert to float".

(** [x * n] for a float [x] and an int [n]. *)
Definition float_mul_int (x : float) (n : Z) : option float :=
  match float_of_int n with
  | Some y => Some (PrimFloat.mul x y)
  | None => None
  end.

(** The value of [acc] after [for x in l: acc += x]. *)
Definition float_sum_from (acc : float) (l : list float) : float :=
  fold_left PrimFloat.add l acc.

(** The sum of a list of floats, accumulated left to right from [0.0]. *)
Definition float_sum (l : list float) : float := float_sum_from PrimFloat.zero l.

(** The integers the driver can encode: those that fit in 8 bytes. *)
Definition bson_int (z : Z) : bool := (- 2 ^ 63 <=? z) && (z <? 2 ^ 63).

Definition bson_overflow_msg : string := "MongoDB can only handle up to 8-byte ints".

(** ** Exceptions *)

Inductive exn :=
| HTTPException (status_code : Z) (detail : string)
| Exception (msg : string).

(** [str(e)] *)
Definition exn_str (e : exn) : string :=
  match e with
  | HTTPException _ d => d
  | Exception m => m
  end.

Inductive result (A : Type) :=
| Ok (a : A)
| Raise (e : exn).
Arguments Ok {A} a.
Arguments Raise {A} e.

(** ** Response models *)

Record PageInfo := {
  page_next : option Z;
  page_limit : Z;
  page_previous : option Z
}.

(** ** Helpers *)

Definition create_pagination_info (offset limit total_count : Z) : PageInfo :=
  let next_offset :=
    if offset + limit <? total_count then Some (offset + limit) else None in
  let previous_offset :=
    if 0 <? offset then Some (Z.max 0 (offset - limit)) else None in
  {| page_next := next_offset;
     page_limit := limit;
     page_previous := if 0 <? offset then previous_offset else None |}.


(** ** Request and response models (pydantic) *)

Record Size := { size : string; quantity : Z }.

Record Product := { name : string; price : float; sizes : list Size }.

Record ProductResponse := { product_response_id : string }.

Record ProductListItem := {
  list_item_id : string;
  list_item_name : string;
  list_item_price : float
}.

Record ProductListResponse := {
  product_list_data : list ProductListItem;
  product_list_page : PageInfo
}.

Record OrderItem := { productid : string; qty : Z }.

Record CreateOrder := { userId : string; items : list OrderItem }.

Record OrderResponse := { order_response_id : string }.

Record ProductDetails := { details_name : string; details_id : string }.

Record OrderItemDetail := { productDetails : ProductDetails; detail_qty : Z }.

Record OrderDetail := {
  detail_id : string;
  detail_items : list OrderItemDetail;
  detail_total : float
}.

Record OrderListResponse := {
  order_list_data : list OrderDetail;
  order_list_page : PageInfo
}.

(** ** [bson.ObjectId] *)

Class ObjectIdOps := {
  oid : Type;
  oid_eq_dec :: EqDecision oid;
  (** [ObjectId(s)]; [None] when the constructor raises. *)
  ObjectId : string -> option oid;
  (** [str(oid)], which is also MongoDB's [$toString]. *)
  oid_str : oid -> string;
  (** The order [sort("_id", 1)] uses. *)
  oid_leb : oid -> oid -> bool
}.

(** ** Stored documents *)

(** The dictionary [create_product] inserts: [product.dict()] plus
    [created_at]. *)
Record ProductDict := {
  dict_name : string;
  dict_price : float;
  dict_sizes : list Size;
  dict_created_at : Z
}.

(** One entry of [validated_items]. *)
Record OrderLine := {
  line_productid : string;
  line_qty : Z;
  line_price : float;
  line_item_total : float
}.

(** [order_dict] of [create_order]. *)
Record OrderDict := {
  dict_userId : string;
  dict_items : list OrderLine;
  dict_total : float;
  dict_status : string;
  order_created_at : Z
}.

(** The projection [{"name": 1, "price": 1}]. *)
Record NamePrice := { proj_name : string; proj_price : float }.

(** ** Regular expressions of the store ([$regex])

    A fragment of PCRE: literal characters, [.], a backslash followed by a
    character that is not alphanumeric (that character, literally), and the
    postfix quantifiers [*], [+], [?].  Anchors, groups, classes,
    alternation, counted repetition and alphanumeric escapes are outside the
    fragment: [regex_compile] answers [None] on them.  A text is matched
    character by character, a character being a byte, and option [i] folds
    the ASCII letters only: this is the behaviour of the store on ASCII
    text, and the statements about matching are restricted to it. *)

Inductive token := TLit (c : ascii) | TAny | TStar | TPlus | TOpt.

Inductive atom := Lit (c : ascii) | Any.

Inductive quant := One | Star | Plus | Opt.

Definition in_range (lo hi : N) (c : ascii) : bool :=
  ((lo <=? N_of_ascii c) && (N_of_ascii c <=? hi))%N.

Definition is_alnum (c : ascii) : bool :=
  in_range 48 57 c || in_range 65 90 c || in_range 97 122 c.

Fixpoint mem_char (c : ascii) (s : string) : bool :=
  match s with
  | EmptyString => false
  | String d s' => Ascii.eqb c d || mem_char c s'
  end.

(** The characters of the fragment's syntax that are not modelled. *)
Definition unsupported_meta : string := "^$[]()|{}".

Fixpoint tokenize (p : string) : option (list token) :=
  match p with
  | EmptyString => Some []
  | String c rest =>
    if Ascii.eqb c "\" then
      match rest with
      | EmptyString => None
      | String d rest' =>
        if is_alnum d then None else cons (TLit d) <$> tokenize rest'
      end
    else if Ascii.eqb c "." then cons TAny <$> tokenize rest
    else if Ascii.eqb c "*" then cons TStar <$> tokenize rest
    else if Ascii.eqb c "+" then cons TPlus <$> tokenize rest
    else if Ascii.eqb c "?" then cons TOpt <$> tokenize rest
    else if mem_char c unsupported_meta then None
    else cons (TLit c) <$> tokenize rest
  end.

Definition atom_of (t : token) : option atom :=
  match t with
  | TLit c => Some (Lit c)
  | TAny => Some Any
  | _ => None
  end.

Fixpoint build (ts : list token) : option (list (atom * quant)) :=
  match ts with
  | [] => Some []
  | t :: ts1 =>
    match atom_of t with
    | None => None
    | Some a =>
      match ts1 with
      | TStar :: ts2 => cons (a, Star) <$> build ts2
      | TPlus :: ts2 => cons (a, Plus) <$> build ts2
      | TOpt :: ts2 => cons (a, Opt) <$> build ts2
      | _ => cons (a, One) <$> build ts1
      end
    end
  end.

Definition regex_compile (pattern : string) : option (list (atom * quant)) :=
  tokenize pattern ≫= build.

(** Case folding of the ASCII letters, as option [i] does on ASCII text. *)
Definition lower (c : ascii) : ascii :=
  if in_range 65 90 c then ascii_of_N (N_of_ascii c + 32) else c.

Definition atom_matches (icase : bool) (a : atom) (c : ascii) : bool :=
  match a with
  | Any => negb (Ascii.eqb c (ascii_of_N 10))
  | Lit d => if icase then Ascii.eqb (lower d) (lower c) else Ascii.eqb d c
  end.

(** [match_here icase re s]: some prefix of [s] matches [re]. *)
Fixpoint match_here (icase : bool) (re : list (atom * quant)) (s : string) : bool :=
  match re with
  | [] => true
  | (a, q) :: re' =>
    let many := fix many (s : string) : bool :=
      match_here icase re' s ||
      match s with
      | String c s' => atom_matches icase a c && many s'
      | EmptyString => false
      end in
    match q with
    | One =>
      match s with
      | String c s' => atom_matches icase a c && match_here icase re' s'
      | EmptyString => false
      end
    | Star => many s
    | Plus =>
      match s with
      | String c s' => atom_matches icase a c && many s'
      | EmptyString => false
      end
    | Opt =>
      match_here icase re' s ||
      match s with
      | String c s' => atom_matches icase a c && match_here icase re' s'
      | EmptyString => false
      end
    end
  end.

(** Unanchored search: the pattern matches somewhere in [s]. *)
Fixpoint regex_search (icase : bool) (re : list (atom * quant)) (s : string) : bool :=
  match_here icase re s ||
  match s with
  | String _ s' => regex_search icase re s'
  | EmptyString => false
  end.

(** ** [re.escape] *)

(** [_special_chars_map]: the characters [re.escape] puts a backslash before. *)
Definition special_chars : string :=
  "()[]{}?*+-|^$\.&~# " +:+
  String (ascii_of_N 9) (String (ascii_of_N 10) (String (ascii_of_N 13)
    (String (ascii_of_N 11) (String (ascii_of_N 12) EmptyString)))).

Fixpoint re_escape (pattern : string) : string :=
  match pattern with
  | EmptyString => EmptyString
  | String c rest =>
    if mem_char c special_chars then String "\" (String c (re_escape rest))
    else String c (re_escape rest)
  end.

(** ** The state-and-exception monad of the handlers *)

Definition M (S A : Type) : Type := S -> result A * S.

Definition ret {S A} (a : A) : M S A := fun st => (Ok a, st).

Definition raise {S A} (e : exn) : M S A := fun st => (Raise e, st).

Definition bind {S A B} (m : M S A) (k : A -> M S B) : M S B :=
  fun st =>
    match m st with
    | (Ok a, st') => k a st'
    | (Raise e, st') => (Raise e, st')
    end.

(** [try: m  except <any> as e: handler e] *)
Definition try_except {S A} (m : M S A) (handler : exn -> M S A) : M S A :=
  fun st =>
    match m st with
    | (Ok a, st') => (Ok a, st')
    | (Raise e, st') => handler e st'
    end.

(** Lifting of a pure computation that may raise. *)
Definition lift {S A} (r : result A) : M S A := fun st => (r, st).

Notation "'let*' x ':=' m 'in' k" := (bind m (fun x => k))
  (at level 10, x name, m at level 100, k at level 200).

(** [for x in l: s = body x s], stopping at the first exception. *)
Fixpoint for_each {S A B} (body : A -> B -> M S B) (l : list A) (s : B) : M S B :=
  match l with
  | [] => ret s
  | x :: l' => let* s' := body x s in for_each body l' s'
  end.

(** Python truthiness of an optional string: [None] and [""] are falsy. *)
Definition truthy (s : option string) : bool :=
  match s with
  | Some (String _ _) => true
  | _ => false
  end.

(** The query dictionary [list_products] builds. *)
Record ProductFilter := {
  filter_name : option (string * string);   (* [$regex], [$options] *)
  filter_size : option string               (* ["sizes.size"] *)
}.

Section Backend.

Context `{ObjectIdOps}.

Record doc (A : Type) := { _id : oid; body : A }.
Arguments _id {A} d.
Arguments body {A} d.

(** An order as the aggregation pipeline returns it. *)
Record AggregatedOrder := {
  order_doc : doc OrderDict;
  product_details : list (doc string)      (* [_id] and [name] *)
}.

(** *** The store *)

Inductive call :=
| products_insert_one_call
| products_count_documents_call
| products_find_call
| products_find_one_call (product_id : oid)
| orders_insert_one_call
| orders_count_documents_call
| orders_aggregate_call.

Record Store := {
  products_collection : list (doc ProductDict);
  orders_collection : list (doc OrderDict);
  calls : list call
}.

(** The store after the calls [cs] that change no collection. *)
Definition record_calls (cs : list call) (st : Store) : Store :=
  {| products_collection := products_collection st;
     orders_collection := orders_collection st;
     calls := calls st ++ cs |}.

Definition called (c : call) (st : Store) : Store := record_calls [c] st.

Fixpoint insert_by_id {A} (d : doc A) (l : list (doc A)) : list (doc A) :=
  match l with
  | [] => [d]
  | e :: l' => if oid_leb (_id d) (_id e) then d :: l else e :: insert_by_id d l'
  end.

(** [sort("_id", 1)] *)
Definition sort_by_id {A} (l : list (doc A)) : list (doc A) :=
  foldr insert_by_id [] l.

Definition size_matches (size_label : option string) (d : ProductDict) : bool :=
  match size_label with
  | None => true
  | Some v => existsb (fun s => String.eqb (size s) v) (dict_sizes d)
  end.

(** The predicate a query selects by; [None] when its [$regex] is outside
    the modelled fragment. *)
Definition compile_filter (q : ProductFilter) : option (ProductDict -> bool) :=
  match filter_name q with
  | None => Some (size_matches (filter_size q))
  | Some (pattern, options) =>
    match regex_compile pattern with
    | None => None
    | Some re =>
      Some (fun d => regex_search (mem_char "i" options) re (dict_name d)
                     && size_matches (filter_size q) d)
    end
  end.

Definition select (q : ProductDict -> bool) (l : list (doc ProductDict)) :
  list (doc ProductDict) :=
  List.filter (fun d => q (body d)) l.

(** [insert_one] on products: the document is encoded first, which fails
    on a [quantity] beyond 8 bytes; nothing is sent in that case. *)
Definition products_insert_one (new_id : oid) (product_dict : ProductDict) :
  M Store oid :=
  fun st =>
    if forallb (fun s => bson_int (quantity s)) (dict_sizes product_dict) then
      (Ok new_id,
       {| products_collection :=
            products_collection st ++ [{| _id := new_id; body := product_dict |}];
          orders_collection := orders_collection st;
          calls := calls st ++ [products_insert_one_call] |})
    else (Raise (Exception bson_overflow_msg), st).

Definition products_count_documents (q : ProductFilter) : M Store Z :=
  fun st =>
    match compile_filter q with
    | None => (Raise (Exception "Regular expression is invalid"),
               called products_count_documents_call st)
    | Some sel => (Ok (Z.of_nat (length (select sel (products_collection st)))),
                   called products_count_documents_call st)
    end.

(** [find(q, {"name": 1, "price": 1}).sort("_id", 1).skip(skip).limit(limit)]:
    a negative [skip] is refused by the driver when the cursor is built; a
    [skip] or [limit] beyond 8 bytes is refused when the command is encoded;
    a [limit] of 0 is no limit and a negative one counts as its absolute
    value. *)
Definition products_find (q : ProductFilter) (skip limit : Z) :
  M Store (list (doc NamePrice)) :=
  fun st =>
    if skip <? 0 then (Raise (Exception "skip must be >= 0"), st)
    else if negb (bson_int skip && bson_int (Z.abs limit)) then
      (Raise (Exception bson_overflow_msg), st)
    else
      match compile_filter q with
      | None => (Raise (Exception "Regular expression is invalid"),
                 called products_find_call st)
      | Some sel =>
        let sorted := sort_by_id (select sel (products_collection st)) in
        let skipped := drop (Z.to_nat skip) sorted in
        let limited :=
          if limit =? 0 then skipped else take (Z.to_nat (Z.abs limit)) skipped in
        (Ok (map (fun d => {| _id := _id d;
                              body := {| proj_name := dict_name (body d);
                                         proj_price := dict_price (body d) |} |})
                 limited),
         called products_find_call st)
      end.

(** The first document whose [_id] is [i]. *)
Definition product_with_id (i : oid) (products : list (doc ProductDict)) :
  option (doc ProductDict) :=
  List.find (fun d => bool_decide (_id d = i)) products.

(** [find_one({"_id": product_id})] *)
Definition products_find_one (product_id : oid) : M Store (option (doc ProductDict)) :=
  fun st =>
    (Ok (product_with_id product_id (products_collection st)),
     called (products_find_one_call product_id) st).

(** [insert_one] on orders: the document is encoded first, which fails on
    a [qty] beyond 8 bytes; nothing is sent in that case. *)
Definition orders_insert_one (new_id : oid) (order_dict : OrderDict) : M Store oid :=
  fun st =>
    if forallb (fun line => bson_int (line_qty line)) (dict_items order_dict) then
      (Ok new_id,
       {| products_collection := products_collection st;
          orders_collection :=
            orders_collection st ++ [{| _id := new_id; body := order_dict |}];
          calls := calls st ++ [orders_insert_one_call] |})
    else (Raise (Exception bson_overflow_msg), st).

Definition user_orders (user_id : string) (l : list (doc OrderDict)) :
  list (doc OrderDict) :=
  List.filter (fun o => String.eqb (dict_userId (body o)) user_id) l.

Definition orders_count_documents (user_id : string) : M Store Z :=
  fun st =>
    (Ok (Z.of_nat (length (user_orders user_id (orders_collection st)))),
     called orders_count_documents_call st).

(** The [$lookup] stage: the products whose [$toString] of [_id] is among
    the order's [items.productid], projected to [_id] and [name]. *)
Definition lookup_products (products : list (doc ProductDict)) (o : doc OrderDict) :
  list (doc string) :=
  map (fun p => {| _id := _id p; body := dict_name (body p) |})
      (List.filter
         (fun p => existsb (String.eqb (oid_str (_id p)))
                           (map line_productid (dict_items (body o))))
         products).

(** The pipeline of [get_user_orders]: [$match], [$sort], [$skip], [$limit],
    [$lookup].  The driver refuses to encode a [$skip] or [$limit] beyond 8
    bytes; the server refuses a negative [$skip] and a [$limit] that is not
    positive. *)
Definition orders_aggregate (user_id : string) (skip limit : Z) :
  M Store (list AggregatedOrder) :=
  fun st =>
    if negb (bson_int skip && bson_int limit) then
      (Raise (Exception bson_overflow_msg), st)
    else if (skip <? 0) || (limit <=? 0) then
      (Raise (Exception "invalid argument to $skip or $limit"),
       called orders_aggregate_call st)
    else
      let sorted := sort_by_id (user_orders user_id (orders_collection st)) in
      let page := take (Z.to_nat limit) (drop (Z.to_nat skip) sorted) in
      (Ok (map (fun o => {| order_doc := o;
                            product_details :=
                              lookup_products (products_collection st) o |})
               page),
       called orders_aggregate_call st).

(** *** Helpers *)

(** [serialize_object_id]: the [_id] key becomes [id], holding [str(_id)]. *)
Definition serialize_object_id {A} (d : doc A) : string * A :=
  (oid_str (_id d), body d).

(** *** POST /products *)

Definition create_product (now : Z) (new_id : oid) (product : Product) :
  M Store ProductResponse :=
  try_except
    (let product_dict :=
       {| dict_name := name product;
          dict_price := price product;
          dict_sizes := sizes product;
          dict_created_at := now |} in
     let* inserted_id := products_insert_one new_id product_dict in
     ret {| product_response_id := oid_str inserted_id |})
    (fun e => raise (HTTPException 500 ("Failed to create product: " +:+ exn_str e))).

(** *** GET /products *)

(** The query dictionary built from the [name] and [size] parameters. *)
Definition build_query_filter (name size : option string) : ProductFilter :=
  let query_filter := {| filter_name := None; filter_size := None |} in
  let query_filter :=
    match name with
    | Some n =>
      if truthy name then
        {| filter_name := Some (re_escape n, "i");
           filter_size := filter_size query_filter |}
      else query_filter
    | None => query_filter
    end in
  match size with
  | Some v =>
    if truthy size then
      {| filter_name := filter_name query_filter; filter_size := Some v |}
    else query_filter
  | None => query_filter
  end.

(** The [ProductListItem] built from the keys of [serialize_object_id doc]. *)
Definition list_item_of (d : doc NamePrice) : ProductListItem :=
  let product := serialize_object_id d in
  {| list_item_id := fst product;
     list_item_name := proj_name (snd product);
     list_item_price := proj_price (snd product) |}.

Definition list_products (name size : option string) (limit offset : Z) :
  M Store ProductListResponse :=
  try_except
    (let query_filter := build_query_filter name size in
     let* total_count := products_count_documents query_filter in
     let* cursor := products_find query_filter offset limit in
     let products := map list_item_of cursor in
     let page_info := create_pagination_info offset limit total_count in
     ret {| product_list_data := products; product_list_page := page_info |})
    (fun e => raise (HTTPException 500 ("Failed to fetch products: " +:+ exn_str e))).

(** *** POST /orders *)

(** The body of the loop over [order.items]; the accumulator is
    [(total_amount, validated_items)]. *)
Definition validate_item (item : OrderItem) (acc : float * list OrderLine) :
  M Store (float * list OrderLine) :=
  let* product_id :=
    try_except
      (lift (match ObjectId (productid item) with
             | Some i => Ok i
             | None => Raise (Exception "is not a valid ObjectId")
             end))
      (fun _ => raise (HTTPException 400 ("Invalid product ID: " +:+ productid item))) in
  let* product := products_find_one product_id in
  match product with
  | None => raise (HTTPException 404 ("Product not found: " +:+ productid item))
  | Some product =>
    let* item_total :=
      lift (match float_mul_int (dict_price (body product)) (qty item) with
            | Some x => Ok x
            | None => Raise (Exception overflow_msg)
            end) in
    let total_amount := PrimFloat.add (fst acc) item_total in
    ret (total_amount,
         snd acc ++ [{| line_productid := productid item;
                        line_qty := qty item;
                        line_price := dict_price (body product);
                        line_item_total := item_total |}])
  end.

Definition create_order (now : Z) (new_id : oid) (order : CreateOrder) :
  M Store OrderResponse :=
  try_except
    (let* acc := for_each validate_item (items order) (PrimFloat.zero, []) in
     let order_dict :=
       {| dict_userId := userId order;
          dict_items := snd acc;
          dict_total := fst acc;
          dict_status := "created";
          order_created_at := now |} in
     let* inserted_id := orders_insert_one new_id order_dict in
     ret {| order_response_id := oid_str inserted_id |})
    (fun e =>
       match e with
       | HTTPException _ _ => raise e
       | Exception _ =>
         raise (HTTPException 500 ("Failed to create order: " +:+ exn_str e))
       end).

(** *** GET /orders/{user_id} *)

(** [{str(p["_id"]): p for p in product_details}]: a later entry replaces an
    earlier one with the same key. *)
Definition product_map_of (details : list (doc string)) : gmap string (doc string) :=
  foldl (fun m p => <[oid_str (_id p) := p]> m) ∅ details.

(** The body of the loop over [orders_cursor]. *)
Definition order_detail_of (o : AggregatedOrder) : OrderDetail :=
  let product_map := product_map_of (product_details o) in
  let order_items :=
    omap (fun item =>
            match product_map !! line_productid item with
            | Some product_info =>
              Some {| productDetails :=
                        {| details_name := body product_info;
                           details_id := line_productid item |};
                      detail_qty := line_qty item |}
            | None => None
            end)
         (dict_items (body (order_doc o))) in
  {| detail_id := oid_str (_id (order_doc o));
     detail_items := order_items;
     detail_total := dict_total (body (order_doc o)) |}.

Definition get_user_orders (user_id : string) (limit offset : Z) :
  M Store OrderListResponse :=
  try_except
    (let* total_count := orders_count_documents user_id in
     let* orders_cursor := orders_aggregate user_id offset limit in
     let orders := map order_detail_of orders_cursor in
     let page_info := create_pagination_info offset limit total_count in
     ret {| order_list_data := orders; order_list_page := page_info |})
    (fun e => raise (HTTPException 500 ("Failed to fetch orders: " +:+ exn_str e))).

(** *** The request layer (FastAPI) *)

Inductive loc_elem := Key (k : string) | Index (i : nat).

Inductive constraint :=
| ge_constraint (bound : Z)
| le_constraint (bound : Z)
| gt_constraint (bound : Z).

(** The offending input, which the error reports. *)
Inductive input_value := int_input (z : Z) | float_input (x : float).

Record ValidationError := {
  loc : list loc_elem;
  violated : constraint;
  input : input_value
}.

(** An error can be rendered as JSON unless its input is NaN or an
    infinity. *)
Definition renderable (e : ValidationError) : bool :=
  match input e with
  | int_input _ => true
  | float_input x => PrimFloat.is_finite x
  end.

Inductive response (A : Type) :=
| Response (status : Z) (content : A)
| ErrorResponse (status : Z) (detail : string)
| ValidationErrorResponse (status : Z) (errors : list ValidationError).
Arguments Response {A} status content.
Arguments ErrorResponse {A} status detail.
Arguments ValidationErrorResponse {A} status errors.

Definition response_status {A} (r : response A) : Z :=
  match r with
  | Response s _ | ErrorResponse s _ | ValidationErrorResponse s _ => s
  end.

(** [Query(default, ge=.., le=..)] for an integer parameter: the value the
    handler would receive, and the constraints the supplied value violates. *)
Definition Query (param : string) (default : Z) (ge le : option Z)
  (supplied : option Z) : Z * list ValidationError :=
  match supplied with
  | None => (default, [])
  | Some v =>
    (v,
     match ge with
     | Some b =>
       if v <? b then [{| loc := [Key "query"; Key param]; violated := ge_constraint b;
                           input := int_input v |}]
       else []
     | None => []
     end ++
     match le with
     | Some b =>
       if b <? v then [{| loc := [Key "query"; Key param]; violated := le_constraint b;
                           input := int_input v |}]
       else []
     | None => []
     end)
  end.

(** What the framework answers for the outcome of a handler. *)
Definition respond {A} (success_status : Z) (m : M Store A) :
  Store -> response A * Store :=
  fun st =>
    match m st with
    | (Ok a, st') => (Response success_status a, st')
    | (Raise (HTTPException status detail), st') => (ErrorResponse status detail, st')
    | (Raise (Exception _), st') => (ErrorResponse 500 "Internal Server Error", st')
    end.

(** A request whose validation fails is answered 422 by the framework's
    default handler, and the endpoint function is not called; when the
    errors cannot be rendered the answer is 500. *)
Definition validated {A} (errors : list ValidationError)
  (run : Store -> response A * Store) : Store -> response A * Store :=
  match errors with
  | [] => run
  | _ :: _ =>
    fun st =>
      if forallb renderable errors then (ValidationErrorResponse 422 errors, st)
      else (ErrorResponse 500 "Internal Server Error", st)
  end.

(** Constraints of [Product]: [price > 0], each [quantity >= 0]. *)
Definition validate_Product (product : Product) : list ValidationError :=
  (if PrimFloat.ltb PrimFloat.zero (price product) then []
   else [{| loc := [Key "body"; Key "price"]; violated := gt_constraint 0;
            input := float_input (price product) |}]) ++
  concat (imap (fun i s =>
                  if quantity s <? 0 then
                    [{| loc := [Key "body"; Key "sizes"; Index i; Key "quantity"];
                        violated := ge_constraint 0;
                        input := int_input (quantity s) |}]
                  else [])
               (sizes product)).

(** Constraints of [CreateOrder]: each [qty > 0]. *)
Definition validate_CreateOrder (order : CreateOrder) : list ValidationError :=
  concat (imap (fun i item =>
                  if 0 <? qty item then []
                  else [{| loc := [Key "body"; Key "items"; Index i; Key "qty"];
                           violated := gt_constraint 0;
                           input := int_input (qty item) |}])
               (items order)).

Definition POST_products (now : Z) (new_id : oid) (product : Product) :
  Store -> response ProductResponse * Store :=
  validated (validate_Product product)
            (respond 201 (create_product now new_id product)).

Definition GET_products (name size : option string) (limit offset : option Z) :
  Store -> response ProductListResponse * Store :=
  let '(limit_value, limit_errors) := Query "limit" 10 (Some 1) (Some 100) limit in
  let '(offset_value, offset_errors) := Query "offset" 0 (Some 0) None offset in
  validated (limit_errors ++ offset_errors)
            (respond 200 (list_products name size limit_value offset_value)).

Definition POST_orders (now : Z) (new_id : oid) (order : CreateOrder) :
  Store -> response OrderResponse * Store :=
  validated (validate_CreateOrder order)
            (respond 201 (create_order now new_id order)).

Definition GET_orders (user_id : string) (limit offset : option Z) :
  Store -> response OrderListResponse * Store :=
  let '(limit_value, limit_errors) := Query "limit" 10 (Some 1) (Some 100) limit in
  let '(offset_value, offset_errors) := Query "offset" 0 (Some 0) None offset in
  validated (limit_errors ++ offset_errors)
            (respond 200 (get_user_orders user_id limit_value offset_value)).

End Backend.

Arguments _id {_ A} d.
Arguments body {_ A} d.
Arguments Response {A} status content.
Arguments ErrorResponse {A} status detail.
Arguments ValidationErrorResponse {A} status errors.

(** ** Vocabulary of the statements *)





(** The compiled form of a pattern that is the literal text [s]. *)
Fixpoint literal (s : string) : list (atom * quant) :=
  match s with
  | EmptyString => []
  | String c s' => (Lit c, One) :: literal s'
  end.

Section Vocabulary.

Context `{ObjectIdOps}.

(** The item's [productid] is well-formed and is the [_id] of [p]. *)
Definition resolves_to (st : Store) (item : OrderItem) (p : doc ProductDict) : Prop :=
  exists i, ObjectId (productid item) = Some i /\
            product_with_id i (products_collection st) = Some p.

Definition malformed (item : OrderItem) : Prop :=
  ObjectId (productid item) = None.

(** The item's [productid] is well-formed and matches no product. *)
Definition unknown (st : Store) (item : OrderItem) : Prop :=
  exists i, ObjectId (productid item) = Some i /\
            product_with_id i (products_collection st) = None.

(** [float(n)] does not overflow. *)
Definition representable (n : Z) : Prop := is_Some (float_of_int n).

(** The loop body of [create_order] completes on the item. *)
Definition accepted (st : Store) (item : OrderItem) : Prop :=
  (exists p, resolves_to st item p) /\ representable (qty item).

(** The item resolves but its line total overflows. *)
Definition overflowing (st : Store) (item : OrderItem) : Prop :=
  (exists p, resolves_to st item p) /\ float_of_int (qty item) = None.

(** [line] is [item] annotated with the price of the product it resolves to
    and the line total [price * qty], the float product of the price and of
    the quantity converted to a float. *)
Definition annotated (st : Store) (item : OrderItem) (line : OrderLine) : Prop :=
  line_productid line = productid item /\
  line_qty line = qty item /\
  exists p, resolves_to st item p /\
            line_price line = dict_price (body p) /\
            line_item_total line =
            PrimFloat.mul (dict_price (body p))
                          (PrimFloat.of_uint63 (Uint63.of_Z (qty item))).

(** The outcome of the loop body on one item, as a function of the
    products collection. *)
Definition check_item (products : list (doc ProductDict)) (item : OrderItem) :
  result OrderLine :=
  match ObjectId (productid item) with
  | None => Raise (HTTPException 400 ("Invalid product ID: " +:+ productid item))
  | Some i =>
    match product_with_id i products with
    | None => Raise (HTTPException 404 ("Product not found: " +:+ productid item))
    | Some p =>
      match float_mul_int (dict_price (body p)) (qty item) with
      | None => Raise (Exception overflow_msg)
      | Some t =>
        Ok {| line_productid := productid item;
              line_qty := qty item;
              line_price := dict_price (body p);
              line_item_total := t |}
      end
    end
  end.

(** The [find_one] calls made for the items of [l]: one per well-formed
    [productid], in order. *)
Definition lookups (l : list OrderItem) : list call :=
  map products_find_one_call (omap (fun item => ObjectId (productid item)) l).

(** Identifiers grow with insertion: the collection, which is kept in
    insertion order, is also in [_id] order. *)
Definition ids_increasing {A} (l : list (doc A)) : Prop :=
  StronglySorted (fun a b => oid_leb (_id a) (_id b) = true) l.

(** The list view of a stored product: [id], [name] and [price]. *)
Definition listed (d : doc ProductDict) : ProductListItem :=
  {| list_item_id := oid_str (_id d);
     list_item_name := dict_name (body d);
     list_item_price := dict_price (body d) |}.

(** The size filter in force: an empty label is no filter. *)
Definition effective_size (size : option string) : option string :=
  if truthy size then size else None.

(** The page of a user's orders that [get_user_orders] reads. *)
Definition orders_page (st : Store) (user_id : string) (limit offset : Z) :
  list (doc OrderDict) :=
  take (Z.to_nat limit)
       (drop (Z.to_nat offset)
             (sort_by_id (user_orders user_id (orders_collection st)))).

(** [enriched products lines details]: [details] are the lines of [lines]
    whose [productid] is the text of the [_id] of a product, in order, each
    with that product's name, the line's [productid] and its [qty]; the
    lines whose [productid] is the [_id] of no product are left out. *)
Inductive enriched (products : list (doc ProductDict)) :
  list OrderLine -> list OrderItemDetail -> Prop :=
| enriched_nil : enriched products [] []
| enriched_omit line lines details :
    (forall p, p ∈ products -> oid_str (_id p) <> line_productid line) ->
    enriched products lines details ->
    enriched products (line :: lines) details
| enriched_keep line lines details p :
    p ∈ products ->
    oid_str (_id p) = line_productid line ->
    enriched products lines details ->
    enriched products (line :: lines)
             ({| productDetails := {| details_name := dict_name (body p);
                                      details_id := line_productid line |};
                 detail_qty := line_qty line |} :: details).

(** The supplied [limit] is outside 1..100. *)
Definition limit_out_of_range (limit : option Z) : Prop :=
  exists v, limit = Some v /\ (v < 1 \/ 100 < v).

(** The supplied [offset] is negative. *)
Definition offset_out_of_range (offset : option Z) : Prop :=
  exists v, offset = Some v /\ v < 0.

(** The error is about the query parameter [param]. *)
Definition names_parameter (param : string) (e : ValidationError) : Prop :=
  loc e = [Key "query"; Key param].

(** The request was refused by validation. *)
Definition is_validation_error {A} (r : response A) : Prop :=
  match r with
  | ValidationErrorResponse _ _ => True
  | _ => False
  end.

End Vocabulary.

(** ** The 24-hex-digit identifiers *)

Definition is_hex (c : ascii) : bool :=
  in_range 48 57 c || in_range 65 70 c || in_range 97 102 c.

(** ASCII white space, which [bytes.fromhex] skips between bytes. *)
Definition is_space (c : ascii) : bool :=
  in_range 9 13 c || in_range 32 32 c.

(** [bytes.fromhex]: pairs of hexadecimal digits, with white space allowed
    before each pair and at the end; the bytes are given as their
    lower-case hexadecimal text. *)
Fixpoint fromhex (s : string) : option string :=
  match s with
  | EmptyString => Some EmptyString
  | String c s' =>
    if is_space c then fromhex s'
    else if is_hex c then
      match s' with
      | String d s'' =>
        if is_hex d then
          match fromhex s'' with
          | Some t => Some (String (lower c) (String (lower d) t))
          | None => None
          end
        else None
      | EmptyString => None
      end
    else None
  end.

(** [ObjectId(s)] for a string: the length must be 24 and [bytes.fromhex]
    must accept it.  An identifier is the lower-case hexadecimal text of
    its bytes, which is what [str] returns. *)
Definition hex_ObjectId (s : string) : option string :=
  if (String.length s =? 24)%nat then fromhex s else None.

#[global] Instance hex_oid : ObjectIdOps := {|
  oid := string;
  ObjectId := hex_ObjectId;
  oid_str := fun i => i;
  oid_leb := String.leb
|}.

(** ** A sample store *)

Definition shirt_id : string := "64b7f0c2a1b2c3d4e5f60001".
Definition cap_id : string := "64b7f0c2a1b2c3d4e5f60002".
Definition absent_id : string := "64b7f0c2a1b2c3d4e5f60009".

Definition shirt : doc ProductDict :=
  {| _id := shirt_id;
     body := {| dict_name := "Shirt a.b";
                dict_price := 10%float;
                dict_sizes := [{| size := "M"; quantity := 4 |}];
                dict_created_at := 1 |} |}.

Definition cap : doc ProductDict :=
  {| _id := cap_id;
     body := {| dict_name := "Cap axb";
                dict_price := 5%float;
                dict_sizes := [{| size := "L"; quantity := 0 |}];
                dict_created_at := 2 |} |}.

Definition sample_store : Store :=
  {| products_collection := [shirt; cap]; orders_collection := []; calls := [] |}.

Definition new_order_id : oid := "64b7f0c2a1b2c3d4e5f6000a".

Definition two_shirts : OrderItem := {| productid := shirt_id; qty := 2 |}.
Definition three_caps : OrderItem := {| productid := cap_id; qty := 3 |}.
Definition bad_id_item : OrderItem := {| productid := "zz"; qty := 1 |}.
Definition absent_item : OrderItem := {| productid := absent_id; qty := 1 |}.

(** Two items, 10.00 x 2 and 5.00 x 3. *)
Definition sample_order : CreateOrder :=
  {| userId := "u1"; items := [two_shirts; three_caps] |}.

(** A valid item, then a malformed id, then an unknown id. *)
Definition mixed_order : CreateOrder :=
  {| userId := "u1"; items := [two_shirts; bad_id_item; absent_item] |}.

(** An unknown id, then a malformed id. *)
Definition unknown_first_order : CreateOrder :=
  {| userId := "u1"; items := [absent_item; bad_id_item] |}.

(** An order of 10.00 x 2 and 5.00 x 3 whose second product is no longer in
    the products collection. *)
Definition past_order : doc OrderDict :=
  {| _id := "64b7f0c2a1b2c3d4e5f60100";
     body := {| dict_userId := "u1";
                dict_items :=
                  [{| line_productid := shirt_id; line_qty := 2;
                      line_price := 10%float; line_item_total := 20%float |};
                   {| line_productid := absent_id; line_qty := 3;
                      line_price := 5%float; line_item_total := 15%float |}];
                dict_total := 35%float;
                dict_status := "created";
                order_created_at := 3 |} |}.

Definition store_with_order : Store :=
  {| products_collection := [shirt; cap];
     orders_collection := [past_order];
     calls := [] |}.

(** ** The service as a transition system *)

Section Service.

Context `{ObjectIdOps}.

(** The requests that read or write the store; [now] and [new_id] are the
    clock reading and the identifier the driver generates for an insert. *)
Inductive request :=
| post_products (now : Z) (new_id : oid) (product : Product)
| get_products (name size : option string) (limit offset : option Z)
| post_orders (now : Z) (new_id : oid) (order : CreateOrder)
| get_orders (user_id : string) (limit offset : option Z).

(** The store after a request. *)
Definition handle (req : request) (st : Store) : Store :=
  match req with
  | post_products now new_id product => snd (POST_products now new_id product st)
  | get_products name size limit offset => snd (GET_products name size limit offset st)
  | post_orders now new_id order => snd (POST_orders now new_id order st)
  | get_orders user_id limit offset => snd (GET_orders user_id limit offset st)
  end.

Definition empty_store : Store :=
  {| products_collection := []; orders_collection := []; calls := [] |}.

(** The stores the service can be in, starting from empty collections. *)
Inductive reachable : Store -> Prop :=
| reachable_empty : reachable empty_store
| reachable_handle req st : reachable st -> reachable (handle req st).

(** The constraints of [Product] and [Size], on a stored product. *)
Definition product_valid (d : ProductDict) : Prop :=
  PrimFloat.ltb PrimFloat.zero (dict_price d) = true /\
  Forall (fun s => 0 <= quantity s) (dict_sizes d).

(** A stored line has a positive quantity, refers to a product of the
    collection, carries that product's price, and its total is
    [price * qty]. *)
Definition line_valid (products : list (doc ProductDict)) (line : OrderLine) : Prop :=
  0 < line_qty line /\
  exists i p,
    ObjectId (line_productid line) = Some i /\
    product_with_id i products = Some p /\
    line_price line = dict_price (body p) /\
    float_mul_int (dict_price (body p)) (line_qty line) = Some (line_item_total line).

(** A stored order has status ["created"], a total that is the sum of its
    line totals, and valid lines. *)
Definition order_valid (products : list (doc ProductDict)) (d : OrderDict) : Prop :=
  dict_status d = "created" /\
  dict_total d = float_sum (map line_item_total (dict_items d)) /\
  Forall (line_valid products) (dict_items d).

(** What a request does to the collections: nothing, or the insertion of
    one product whose body passed validation, or the insertion of one order
    whose body passed validation and whose items all passed the loop. *)
Inductive effect (st st' : Store) : Prop :=
| effect_none :
    products_collection st' = products_collection st ->
    orders_collection st' = orders_collection st ->
    effect st st'
| effect_product now new_id product :
    validate_Product product = [] ->
    products_collection st' =
    products_collection st ++
    [{| _id := new_id;
        body := {| dict_name := name product; dict_price := price product;
                   dict_sizes := sizes product; dict_created_at := now |} |}] ->
    orders_collection st' = orders_collection st ->
    effect st st'
| effect_order now new_id order lines :
    validate_CreateOrder order = [] ->
    Forall2 (fun item line => check_item (products_collection st) item = Ok line)
            (items order) lines ->
    products_collection st' = products_collection st ->
    orders_collection st' =
    orders_collection st ++
    [{| _id := new_id;
        body := {| dict_userId := userId order;
                   dict_items := lines;
                   dict_total := float_sum (map line_item_total lines);
                   dict_status := "created";
                   order_created_at := now |} |}] ->
    effect st st'.

(** The item's [productid] is the text [str] gives for the identifier it
    denotes. *)
Definition canonical (item : OrderItem) : Prop :=
  exists i, ObjectId (productid item) = Some i /\ oid_str i = productid item.

(** [detail] is what is returned for [item]: the item's [productid] and
    [qty], and the name of the product the item resolves to. *)
Definition returned_for (st : Store) (item : OrderItem) (detail : OrderItemDetail) :
  Prop :=
  details_id (productDetails detail) = productid item /\
  detail_qty detail = qty item /\
  exists p, resolves_to st item p /\
            details_name (productDetails detail) = dict_name (body p).

(** The product has a size entry labelled [v]. *)
Definition has_size (v : string) (d : ProductDict) : Prop :=
  exists s, s ∈ dict_sizes d /\ size s = v.

(** [oid_leb] is total. *)
Definition oid_leb_total : Prop :=
  forall a b : oid, oid_leb a b = true \/ oid_leb b a = true.

End Service.

(** An order whose only line spells the identifier of [shirt] in upper
    case. *)
Definition upper_case_item : OrderItem :=
  {| productid := "64B7F0C2A1B2C3D4E5F60001"; qty := 1 |}.

Definition upper_case_order : doc OrderDict :=
  {| _id := "64b7f0c2a1b2c3d4e5f60101";
     body := {| dict_userId := "u2";
                dict_items :=
                  [{| line_productid := productid upper_case_item; line_qty := 1;
                      line_price := 10%float; line_item_total := 10%float |}];
                dict_total := 10%float;
                dict_status := "created";
                order_created_at := 4 |} |}.

Definition store_with_two_orders : Store :=
  {| products_collection := [shirt; cap];
     orders_collection := [past_order; upper_case_order];
     calls := [] |}.

(** A later order of the first user, whose identifier is smaller than the
    identifier of [past_order]. *)
Definition later_order : doc OrderDict :=
  {| _id := "64b7f0c2a1b2c3d4e5f600ff";
     body := {| dict_userId := "u1";
                dict_items :=
                  [{| line_productid := cap_id; line_qty := 1;
                      line_price := 5%float; line_item_total := 5%float |}];
                dict_total := 5%float;
                dict_status := "created";
                order_created_at := 5 |} |}.

Definition store_with_three_orders : Store :=
  {| products_collection := [shirt; cap];
     orders_collection := [past_order; upper_case_order; later_order];
     calls := [] |}.

Definition scarf : Product :=
  {| name := "Scarf"; price := 3%float; sizes := [{| size := "S"; quantity := 1 |}] |}.

Definition scarf_id : oid := "64b7f0c2a1b2c3d4e5f60003".

(** The two sample products as request bodies. *)
Definition cap_product : Product :=
  {| name := "Cap axb"; price := 5%float; sizes := [{| size := "L"; quantity := 0 |}] |}.

Definition shirt_product : Product :=
  {| name := "Shirt a.b"; price := 10%float; sizes := [{| size := "M"; quantity := 4 |}] |}.

(** A store reached by creating the cap and then the shirt, where the
    identifier generated for the shirt is the smaller one. *)
Definition store_cap_then_shirt : Store :=
  handle (post_products 2 shirt_id shirt_product)
         (handle (post_products 1 cap_id cap_product) empty_store).

(** A store reached by creating a product and then ordering it. *)
Definition store_after_two_posts : Store :=
  handle (post_orders 8 new_order_id
                      {| userId := "u1";
                         items := [{| productid := scarf_id; qty := 2 |}] |})
         (handle (post_products 7 scarf_id scarf) empty_store).

(** * Properties *)

(** C1: for offset >= 0, limit >= 1 and total_count >= 0, the page
    descriptor has [next = offset + limit] exactly when
    [offset + limit < total_count] (absent otherwise), and
    [previous = max 0 (offset - limit)] exactly when [offset > 0] (absent
    otherwise); [limit] is echoed. *)
Theorem create_pagination_info_spec (offset limit total_count : Z) :
  0 <= offset -> 1 <= limit -> 0 <= total_count ->
  let p := create_pagination_info offset limit total_count in
  (offset + limit < total_count -> page_next p = Some (offset + limit)) /\
  (total_count <= offset + limit -> page_next p = None) /\
  (0 < offset -> page_previous p = Some (Z.max 0 (offset - limit))) /\
  (offset = 0 -> page_previous p = None) /\
  page_limit p = limit.
Proof.
  intros Ho Hl Ht p. subst p. unfold create_pagination_info. simpl.
  repeat split; intros H.
  - destruct (Z.ltb_spec (offset + limit) total_count); [reflexivity | lia].
  - destruct (Z.ltb_spec (offset + limit) total_count); [lia | reflexivity].
  - destruct (Z.ltb_spec 0 offset); [reflexivity | lia].
  - subst offset. reflexivity.
Qed.

Lemma create_pagination_info_spec_witness :
  let p := create_pagination_info 10 10 25 in
  (10 + 10 < 25 -> page_next p = Some (10 + 10)) /\
  (25 <= 10 + 10 -> page_next p = None) /\
  (0 < 10 -> page_previous p = Some (Z.max 0 (10 - 10))) /\
  (10 = 0 -> page_previous p = None) /\
  page_limit p = 10.
Proof. apply (create_pagination_info_spec 10 10 25); lia. Defined.

Example float_demo :
  float_mul_int 10%float 2 = Some 20%float /\
  float_sum [20%float; 15%float] = 35%float.
Proof. split; reflexivity. Qed.

(** The conversion rounds to nearest even and overflows from
    [2^1024 - 2^970] on. *)
Example float_of_int_rounding :
  float_of_int (2 ^ 53 + 1) = float_of_int (2 ^ 53) /\
  float_of_int (2 ^ 53 + 3) = float_of_int (2 ^ 53 + 4) /\
  is_Some (float_of_int (2 ^ 1024 - 2 ^ 970 - 1)) /\
  float_of_int (2 ^ 1024 - 2 ^ 970) = None.
Proof. vm_compute. repeat split. eauto. Qed.

Section Floats.

(** The conversion of an integer that fits in 8 bytes does not overflow,
    and on a non-negative one it is the kernel's conversion of a 63-bit
    integer. *)

Lemma digits2_pos_size p : digits2_pos p = Pos.size p.
Proof. induction p; simpl; congruence. Qed.

Lemma digits2_pos_log2 p : Zpos (digits2_pos p) = Z.log2 (Zpos p) + 1.
Proof.
  rewrite digits2_pos_size. destruct p; simpl; rewrite ?Pos2Z.inj_succ; lia.
Qed.

Lemma Zdigits2_le x k : 0 <= k -> 0 <= x < 2 ^ k -> Zdigits2 x <= k.
Proof.
  intros Hk [H0 Hx]. destruct x as [|p|p]; simpl; [lia| |lia].
  rewrite digits2_pos_log2.
  assert (Z.log2 (Zpos p) < k) by (apply Z.log2_lt_pow2; lia). lia.
Qed.

Lemma Zpos_lt_digits p : Zpos p < 2 ^ Zpos (digits2_pos p).
Proof.
  rewrite digits2_pos_log2.
  pose proof (Z.log2_spec (Zpos p) ltac:(lia)) as [_ Hlt].
  replace (Z.log2 (Z.pos p) + 1) with (Z.succ (Z.log2 (Zpos p))) by lia. exact Hlt.
Qed.

Lemma digits2_pos_iter_xO p k :
  Zpos (digits2_pos (Pos.iter xO p k)) = Zpos (digits2_pos p) + Zpos k.
Proof.
  apply (Pos.iter_ind _ xO p
           (fun k q => Zpos (digits2_pos q) = Zpos (digits2_pos p) + Zpos k)).
  - simpl. lia.
  - intros k' q Hq. simpl. lia.
Qed.

Lemma shr_1_bound r : 0 <= shr_m r -> 0 <= shr_m (shr_1 r) <= shr_m r.
Proof. destruct r as [[|[p|p|]|p] b s]; simpl; lia. Qed.

Lemma iter_shr_1_bound n : forall r,
  0 <= shr_m r -> 0 <= shr_m (SpecFloat.iter_pos shr_1 n r) <= shr_m r.
Proof.
  induction n as [n IH|n IH|]; intros r Hr; simpl.
  - pose proof (shr_1_bound r Hr) as H1.
    pose proof (IH (shr_1 r) ltac:(lia)) as H2.
    pose proof (IH (SpecFloat.iter_pos shr_1 n (shr_1 r)) ltac:(lia)) as H3. lia.
  - pose proof (IH r Hr) as H2.
    pose proof (IH (SpecFloat.iter_pos shr_1 n r) ltac:(lia)) as H3. lia.
  - apply shr_1_bound, Hr.
Qed.

Lemma shr_fexp_bound m e l :
  0 <= m ->
  0 <= shr_m (fst (shr_fexp prec emax m e l)) <= m /\
  snd (shr_fexp prec emax m e l) <= Z.max e (fexp prec emax (Zdigits2 m + e)).
Proof.
  intros Hm. unfold shr_fexp, shr.
  assert (shr_m (shr_record_of_loc m l) = m) as Hrec by (by destruct l as [|[]]).
  destruct (fexp prec emax (Zdigits2 m + e) - e) as [|n|n] eqn:Hn; simpl.
  - rewrite Hrec. lia.
  - pose proof (iter_shr_1_bound n (shr_record_of_loc m l)) as Hb.
    rewrite Hrec in Hb. lia.
  - rewrite Hrec. lia.
Qed.

Lemma round_nearest_even_bound m l : m <= round_nearest_even m l <= m + 1.
Proof. destruct l as [|[]]; simpl; try lia. destruct (Z.even m); lia. Qed.

Lemma binary_round_finite s p :
  Zpos p < 2 ^ 64 ->
  forall s', binary_round prec emax s p 0 <> S754_infinity s'.
Proof.
  intros Hp s'. unfold binary_round.
  assert (1 <= Zpos (digits2_pos p) <= 64) as Hd.
  { split; [lia|]. apply (Zdigits2_le (Zpos p) 64); lia. }
  assert (exists mz ez,
            shl_align p 0 (fexp prec emax (Zpos (digits2_pos p) + 0)) = (mz, ez) /\
            ez <= 0 /\ Zpos (digits2_pos mz) <= 64) as (mz & ez & -> & Hez & Hmz).
  { unfold shl_align.
    destruct (fexp prec emax (Zpos (digits2_pos p) + 0) - 0) as [|k|k] eqn:Hk.
    - eexists _, _. split; [reflexivity|]. lia.
    - eexists _, _. split; [reflexivity|]. lia.
    - eexists _, _. split; [reflexivity|]. rewrite digits2_pos_iter_xO.
      unfold fexp, SpecFloat.emin, prec, emax in *. lia. }
  unfold binary_round_aux.
  pose proof (shr_fexp_bound (Zpos mz) ez loc_Exact ltac:(lia)) as [Hm1 He1].
  destruct (shr_fexp prec emax (Zpos mz) ez loc_Exact) as [mrs' e'].
  simpl in Hm1, He1.
  pose proof (round_nearest_even_bound (shr_m mrs') (loc_of_shr_record mrs')) as Hr.
  set (m' := round_nearest_even (shr_m mrs') (loc_of_shr_record mrs')) in *.
  pose proof (shr_fexp_bound m' e' loc_Exact ltac:(lia)) as [Hm2 He2].
  destruct (shr_fexp prec emax m' e' loc_Exact) as [mrs'' e''].
  simpl in Hm2, He2.
  pose proof (Zpos_lt_digits mz) as Hlt.
  assert (2 ^ Zpos (digits2_pos mz) <= 2 ^ 64) as Hpow
      by (apply Z.pow_le_mono_r; lia).
  assert (Zdigits2 m' <= 65) as Hd'.
  { apply Zdigits2_le; [lia|]. split; [lia|].
    change (2 ^ 65) with (2 * 2 ^ 64). lia. }
  assert (Zdigits2 (Zpos mz) <= 64) as Hdz by exact Hmz.
  assert (e'' <= emax - prec) as Hfin.
  { unfold fexp, SpecFloat.emin, prec, emax in *. lia. }
  destruct (shr_m mrs''); [done..| |done]; try discriminate.
  apply Z.leb_le in Hfin. rewrite Hfin. discriminate.
Qed.

Lemma float_of_int_int64 z :
  - 2 ^ 63 <= z < 2 ^ 63 -> exists y, float_of_int z = Some y.
Proof.
  intros Hz. unfold float_of_int, binary_normalize.
  destruct z as [|p|p].
  - eexists. reflexivity.
  - pose proof (binary_round_finite false p ltac:(lia)) as Hfin.
    destruct (binary_round prec emax false p 0); eauto. by destruct (Hfin s).
  - pose proof (binary_round_finite true p ltac:(lia)) as Hfin.
    destruct (binary_round prec emax true p 0); eauto. by destruct (Hfin s).
Qed.

Lemma float_of_int_uint63 z :
  0 <= z < 2 ^ 63 -> float_of_int z = Some (PrimFloat.of_uint63 (Uint63.of_Z z)).
Proof.
  intros Hz. destruct (float_of_int_int64 z ltac:(lia)) as [y Hy].
  unfold float_of_int in *.
  assert (binary_normalize prec emax z 0 false
          = Prim2SF (PrimFloat.of_uint63 (Uint63.of_Z z))) as Heq.
  { rewrite of_uint63_spec, of_Z_spec. f_equal. rewrite Z.mod_small; [done|].
    change wB with (2 ^ 63). lia. }
  rewrite Heq in *.
  pose proof (SF2Prim_Prim2SF (PrimFloat.of_uint63 (Uint63.of_Z z))) as Hround.
  destruct (Prim2SF (PrimFloat.of_uint63 (Uint63.of_Z z)));
    [by rewrite Hround|done|by rewrite Hround..].
Qed.

Lemma bson_int_spec z : bson_int z = true <-> - 2 ^ 63 <= z < 2 ^ 63.
Proof. unfold bson_int. rewrite andb_true_iff, Z.leb_le, Z.ltb_lt. done. Qed.

End Floats.

Section CreateOrder.

Context `{ObjectIdOps}.

Implicit Types (st : Store) (item : OrderItem) (line : OrderLine).

Lemma record_calls_nil st : record_calls [] st = st.
Proof. destruct st. unfold record_calls. simpl. by rewrite app_nil_r. Qed.

Lemma record_calls_app cs1 cs2 st :
  record_calls cs2 (record_calls cs1 st) = record_calls (cs1 ++ cs2) st.
Proof. unfold record_calls. simpl. by rewrite app_assoc. Qed.

Lemma lookups_app l1 l2 : lookups (l1 ++ l2) = lookups l1 ++ lookups l2.
Proof. unfold lookups. by rewrite omap_app, map_app. Qed.

(** The loop body, as a function of the products collection. *)
Lemma validate_item_eq item acc st :
  validate_item item acc st =
  (match check_item (products_collection st) item with
   | Ok line =>
     Ok (PrimFloat.add (fst acc) (line_item_total line), snd acc ++ [line])
   | Raise e => Raise e
   end,
   record_calls (lookups [item]) st).
Proof.
  unfold validate_item, check_item, lookups, bind, try_except, lift, raise, ret.
  simpl. destruct (ObjectId (productid item)) as [i|]; simpl.
  - unfold products_find_one, called.
    destruct (product_with_id i (products_collection st)) as [p|]; simpl; [|done].
    by destruct (float_mul_int (dict_price (body p)) (qty item)).
  - by rewrite record_calls_nil.
Qed.

(** The loop over items that all pass. *)
Lemma for_each_accepted l : forall lines acc st,
  Forall2 (fun item line => check_item (products_collection st) item = Ok line) l lines ->
  for_each validate_item l acc st =
  (Ok (float_sum_from (fst acc) (map line_item_total lines), snd acc ++ lines),
   record_calls (lookups l) st).
Proof.
  induction l as [|item l IH]; intros lines acc st Hall.
  - apply Forall2_nil_inv_l in Hall as ->. simpl. unfold ret.
    by rewrite app_nil_r, record_calls_nil, <- surjective_pairing.
  - apply Forall2_cons_inv_l in Hall as (line & lines' & Hline & Hrest & ->).
    simpl. unfold bind. rewrite validate_item_eq, Hline.
    rewrite (IH lines'); [|done].
    rewrite record_calls_app. simpl. rewrite <- app_assoc. simpl.
    by rewrite <- lookups_app.
Qed.

(** The loop stops at the first item that fails. *)
Lemma for_each_first_failure pre : forall lines bad post e acc st,
  Forall2 (fun item line => check_item (products_collection st) item = Ok line) pre lines ->
  check_item (products_collection st) bad = Raise e ->
  for_each validate_item (pre ++ bad :: post) acc st =
  (Raise e, record_calls (lookups (pre ++ [bad])) st).
Proof.
  induction pre as [|item pre IH]; intros lines bad post e acc st Hall Hbad.
  - simpl. unfold bind. by rewrite validate_item_eq, Hbad.
  - apply Forall2_cons_inv_l in Hall as (line & lines' & Hline & Hrest & ->).
    simpl. unfold bind. rewrite validate_item_eq, Hline.
    rewrite (IH lines' bad post e); [|done..].
    rewrite record_calls_app. by rewrite <- lookups_app.
Qed.

Lemma accepted_check st item :
  accepted st item <->
  exists line, check_item (products_collection st) item = Ok line.
Proof.
  unfold accepted, resolves_to, representable, check_item, float_mul_int. split.
  - intros [(p & i & -> & ->) [y Hy]]. rewrite Hy. eauto.
  - intros [line Hline].
    destruct (ObjectId (productid item)) as [i|]; [|done].
    destruct (product_with_id i (products_collection st)) as [p|] eqn:Hp; [|done].
    destruct (float_of_int (qty item)) as [y|]; [|done].
    split; [exists p, i; by split | by exists y].
Qed.

Lemma accepted_lines st l :
  Forall (accepted st) l ->
  exists lines,
    Forall2 (fun item line => check_item (products_collection st) item = Ok line) l lines.
Proof.
  induction 1 as [|item l Hitem _ [lines IH]]; [by exists []|].
  apply accepted_check in Hitem as [line Hline]. exists (line :: lines). by constructor.
Qed.

Lemma check_item_annotated st item line :
  0 <= qty item < 2 ^ 63 ->
  check_item (products_collection st) item = Ok line -> annotated st item line.
Proof.
  unfold check_item, annotated, resolves_to, float_mul_int. intros Hqty Hline.
  destruct (ObjectId (productid item)) as [i|]; [|done].
  destruct (product_with_id i (products_collection st)) as [p|] eqn:Hp; [|done].
  rewrite (float_of_int_uint63 _ Hqty) in Hline.
  injection Hline as <-. simpl. repeat split. exists p. eauto.
Qed.

Lemma checked_qty st l lines :
  Forall2 (fun item line => check_item (products_collection st) item = Ok line) l lines ->
  map line_qty lines = map qty l.
Proof.
  induction 1 as [|item line l lines Hline _ IH]; [done|]. simpl. rewrite IH. f_equal.
  unfold check_item in Hline.
  destruct (ObjectId (productid item)) as [i|]; [|done].
  destruct (product_with_id i (products_collection st)) as [p|]; [|done].
  destruct (float_mul_int (dict_price (body p)) (qty item)) as [t|]; [|done].
  by injection Hline as <-.
Qed.

Lemma forallb_line_qty (lines : list OrderLine) :
  forallb (fun line => bson_int (line_qty line)) lines
  = forallb bson_int (map line_qty lines).
Proof. induction lines as [|line lines IH]; simpl; [done|]. by rewrite IH. Qed.

(** The exception [create_order] lets out for an exception [e] of its body. *)
Lemma create_order_failure now new_id order st pre lines bad post e :
  items order = pre ++ bad :: post ->
  Forall2 (fun item line => check_item (products_collection st) item = Ok line) pre lines ->
  check_item (products_collection st) bad = Raise e ->
  create_order now new_id order st =
  (Raise match e with
         | HTTPException _ _ => e
         | Exception _ => HTTPException 500 ("Failed to create order: " +:+ exn_str e)
         end,
   record_calls (lookups (pre ++ [bad])) st).
Proof.
  intros Hitems Hpre Hbad. unfold create_order, try_except, bind.
  rewrite Hitems, (for_each_first_failure pre lines bad post e); [|done..].
  by destruct e.
Qed.

(** [create_order] on items that all pass the loop: the insert decides. *)
Lemma create_order_checked now new_id order st lines :
  Forall2 (fun item line => check_item (products_collection st) item = Ok line)
          (items order) lines ->
  create_order now new_id order st =
  if forallb bson_int (map qty (items order)) then
    (Ok {| order_response_id := oid_str new_id |},
     {| products_collection := products_collection st;
        orders_collection :=
          orders_collection st ++
          [{| _id := new_id;
              body := {| dict_userId := userId order;
                         dict_items := lines;
                         dict_total := float_sum (map line_item_total lines);
                         dict_status := "created";
                         order_created_at := now |} |}];
        calls := calls st ++ lookups (items order) ++ [orders_insert_one_call] |})
  else
    (Raise (HTTPException 500 ("Failed to create order: " +:+ bson_overflow_msg)),
     record_calls (lookups (items order)) st).
Proof.
  intros Hall. unfold create_order, try_except, bind.
  rewrite (for_each_accepted _ lines); [|done].
  unfold orders_insert_one, ret, float_sum. simpl.
  rewrite forallb_line_qty, (checked_qty st _ _ Hall).
  destruct (forallb bson_int (map qty (items order))); simpl; [|done].
  by rewrite <- app_assoc.
Qed.

Lemma forallb_bson_int (l : list OrderItem) :
  Forall (fun item => - 2 ^ 63 <= qty item < 2 ^ 63) l ->
  forallb bson_int (map qty l) = true.
Proof.
  induction 1 as [|item l Hitem _ IH]; [done|]. simpl. rewrite IH, andb_true_r.
  by apply bson_int_spec.
Qed.

Lemma forallb_bson_int_big (l : list OrderItem) :
  Exists (fun item => 2 ^ 63 <= qty item) l -> forallb bson_int (map qty l) = false.
Proof.
  induction 1 as [item l Hitem|item l _ IH]; simpl.
  - apply andb_false_iff. left. apply not_true_iff_false. rewrite bson_int_spec. lia.
  - rewrite IH. apply andb_false_r.
Qed.

Lemma create_order_success now new_id order st lines :
  Forall2 (fun item line => check_item (products_collection st) item = Ok line)
          (items order) lines ->
  Forall (fun item => - 2 ^ 63 <= qty item < 2 ^ 63) (items order) ->
  create_order now new_id order st =
  (Ok {| order_response_id := oid_str new_id |},
   {| products_collection := products_collection st;
      orders_collection :=
        orders_collection st ++
        [{| _id := new_id;
            body := {| dict_userId := userId order;
                       dict_items := lines;
                       dict_total := float_sum (map line_item_total lines);
                       dict_status := "created";
                       order_created_at := now |} |}];
      calls := calls st ++ lookups (items order) ++ [orders_insert_one_call] |}).
Proof.
  intros Hall Hqty. by rewrite (create_order_checked _ _ _ _ lines Hall), forallb_bson_int.
Qed.

(** Every list of items either passes entirely or has a first failing item. *)
Lemma first_failure_split st l :
  (exists lines,
     Forall2 (fun item line => check_item (products_collection st) item = Ok line) l lines) \/
  (exists pre lines bad post e,
     l = pre ++ bad :: post /\
     Forall2 (fun item line => check_item (products_collection st) item = Ok line) pre lines /\
     check_item (products_collection st) bad = Raise e).
Proof.
  induction l as [|item l IH]; [left; by exists []|].
  destruct (check_item (products_collection st) item) as [line|e] eqn:Hitem.
  - destruct IH as [[lines Hl]|(pre & lines & bad & post & e & -> & Hpre & Hbad)].
    + left. exists (line :: lines). by constructor.
    + right. exists (item :: pre), (line :: lines), bad, post, e.
      split; [done|]. split; [by constructor | done].
  - right. exists [], [], item, l, e. split; [done|]. split; [constructor | done].
Qed.

Lemma lookups_not_insert l : orders_insert_one_call ∉ lookups l.
Proof.
  unfold lookups. intros Hin. apply list_elem_of_fmap in Hin as (i & Hi & _). done.
Qed.

Lemma malformed_check st item :
  malformed item ->
  check_item (products_collection st) item =
  Raise (HTTPException 400 ("Invalid product ID: " +:+ productid item)).
Proof. unfold malformed, check_item. by intros ->. Qed.

Lemma unknown_check st item :
  unknown st item ->
  check_item (products_collection st) item =
  Raise (HTTPException 404 ("Product not found: " +:+ productid item)).
Proof. unfold unknown, check_item. by intros (i & -> & ->). Qed.

Lemma overflowing_check st item :
  overflowing st item ->
  check_item (products_collection st) item = Raise (Exception overflow_msg).
Proof.
  unfold overflowing, resolves_to, check_item, float_mul_int.
  by intros [(p & i & -> & ->) ->].
Qed.

Lemma malformed_lookups l item : malformed item -> lookups (l ++ [item]) = lookups l.
Proof.
  unfold malformed. intros Hbad. rewrite lookups_app. unfold lookups at 2. simpl.
  rewrite Hbad. simpl. by rewrite app_nil_r.
Qed.

Lemma lines_accepted st l lines :
  Forall2 (fun item line => check_item (products_collection st) item = Ok line) l lines ->
  Forall (accepted st) l.
Proof.
  induction 1 as [|item line l lines Hitem _ IH]; constructor; [|done].
  apply accepted_check. by exists line.
Qed.

Lemma resolving_failure st item e :
  (exists p, resolves_to st item p) ->
  check_item (products_collection st) item = Raise e ->
  e = Exception overflow_msg /\ float_of_int (qty item) = None.
Proof.
  unfold resolves_to, check_item, float_mul_int. intros (p & i & -> & ->).
  destruct (float_of_int (qty item)); [done|]. intros [= <-]. done.
Qed.

Lemma resolving_accepted st item :
  (exists p, resolves_to st item p) -> - 2 ^ 63 <= qty item < 2 ^ 63 ->
  accepted st item.
Proof.
  intros Hp Hqty. split; [done|]. destruct (float_of_int_int64 _ Hqty) as [y Hy].
  by exists y.
Qed.

(** C2: when every item resolves to an existing product and every
    quantity is positive and fits in 8 bytes, an order is persisted; it
    holds each item annotated with the product's price and with the line
    total, the float product of the price and the quantity, and its total
    is the sum of the line totals.  When a quantity does not fit in 8 bytes
    the request fails with 500 and nothing is persisted. *)
Theorem create_order_total now new_id order st :
  Forall (fun item => exists p, resolves_to st item p) (items order) ->
  (Forall (fun item => 0 < qty item < 2 ^ 63) (items order) ->
   exists d,
     create_order now new_id order st =
     (Ok {| order_response_id := oid_str new_id |},
      {| products_collection := products_collection st;
         orders_collection := orders_collection st ++ [{| _id := new_id; body := d |}];
         calls := calls st ++ lookups (items order) ++ [orders_insert_one_call] |}) /\
     dict_userId d = userId order /\
     dict_status d = "created" /\
     Forall2 (annotated st) (items order) (dict_items d) /\
     dict_total d = float_sum (map line_item_total (dict_items d))) /\
  (Exists (fun item => 2 ^ 63 <= qty item) (items order) ->
   exists detail st',
     create_order now new_id order st = (Raise (HTTPException 500 detail), st') /\
     products_collection st' = products_collection st /\
     orders_collection st' = orders_collection st).
Proof.
  intros Hres. split.
  - intros Hqty.
    assert (Forall (accepted st) (items order)) as Hacc.
    { apply Forall_forall. intros item Hin. apply resolving_accepted.
      - by apply (proj1 (Forall_forall _ _) Hres).
      - apply (proj1 (Forall_forall _ _) Hqty) in Hin. lia. }
    apply accepted_lines in Hacc as [lines Hlines].
    eexists. split.
    { apply create_order_success; [exact Hlines|].
      eapply Forall_impl; [exact Hqty|]. intros item Hitem. simpl in Hitem. lia. }
    simpl. split; [done|]. split; [done|]. split; [|done].
    clear Hres. induction Hlines as [|item line l lines Hline _ IH]; [constructor|].
    apply Forall_cons in Hqty as [Hitem Hqty]. constructor; [|by apply IH].
    apply check_item_annotated; [lia | done].
  - intros Hbig.
    destruct (first_failure_split st (items order))
      as [[lines Hl]|(pre & lines & bad & post & e & Hitems & Hpre & Hbad)].
    + rewrite (create_order_checked _ _ _ _ lines Hl), (forallb_bson_int_big _ Hbig).
      eexists _, _. split; [done|]. done.
    + assert (exists p, resolves_to st bad p) as Hp.
      { apply (proj1 (Forall_forall _ _) Hres). rewrite Hitems. set_solver. }
      destruct (resolving_failure st bad e Hp Hbad) as [-> _].
      eexists _, _. split; [|split].
      * by rewrite (create_order_failure _ _ _ _ pre lines bad post _ Hitems Hpre Hbad).
      * done.
      * done.
Qed.

(** C3 (amended): the first item at which validation fails decides the
    answer: 400 naming its id when the id is malformed, 404 naming its id
    when the id is well-formed and matches no product; and whenever
    [create_order] fails, both collections are as before and no insert has
    been issued. *)
Theorem create_order_rejection now new_id order st :
  (forall pre bad post,
     items order = pre ++ bad :: post ->
     Forall (accepted st) pre ->
     (malformed bad ->
      fst (create_order now new_id order st) =
      Raise (HTTPException 400 ("Invalid product ID: " +:+ productid bad))) /\
     (unknown st bad ->
      fst (create_order now new_id order st) =
      Raise (HTTPException 404 ("Product not found: " +:+ productid bad)))) /\
  (forall e,
     fst (create_order now new_id order st) = Raise e ->
     products_collection (snd (create_order now new_id order st)) = products_collection st /\
     orders_collection (snd (create_order now new_id order st)) = orders_collection st /\
     exists cs,
       calls (snd (create_order now new_id order st)) = calls st ++ cs /\
       orders_insert_one_call ∉ cs).
Proof.
  split.
  - intros pre bad post Hitems Hpre. apply accepted_lines in Hpre as [lines Hlines].
    split; intros Hbad.
    + by rewrite (create_order_failure _ _ _ _ pre lines bad post _ Hitems Hlines
                    (malformed_check st bad Hbad)).
    + by rewrite (create_order_failure _ _ _ _ pre lines bad post _ Hitems Hlines
                    (unknown_check st bad Hbad)).
  - intros e He.
    destruct (first_failure_split st (items order))
      as [[lines Hl]|(pre & lines & bad & post & e' & Hitems & Hpre & Hbad)].
    + rewrite (create_order_checked _ _ _ _ lines Hl) in He |- *.
      destruct (forallb bson_int (map qty (items order))); [done|].
      simpl. split; [done|]. split; [done|].
      eexists. split; [done|]. apply lookups_not_insert.
    + rewrite (create_order_failure _ _ _ _ pre lines bad post e' Hitems Hpre Hbad).
      simpl. split; [done|]. split; [done|].
      eexists. split; [done|]. apply lookups_not_insert.
Qed.

(** C10: items are examined in list order and the loop stops at the first
    item that fails: the answer is the error of that item (400 for a
    malformed id, 404 for an unknown one, 500 when its line total
    overflows), whatever the items after it are, and the only lookups made
    are those of the items before it and, when its id is well-formed, its
    own. *)
Theorem create_order_first_invalid now new_id order st pre bad post :
  items order = pre ++ bad :: post ->
  Forall (accepted st) pre ->
  (malformed bad ->
   create_order now new_id order st =
   (Raise (HTTPException 400 ("Invalid product ID: " +:+ productid bad)),
    record_calls (lookups pre) st)) /\
  (unknown st bad ->
   create_order now new_id order st =
   (Raise (HTTPException 404 ("Product not found: " +:+ productid bad)),
    record_calls (lookups (pre ++ [bad])) st)) /\
  (overflowing st bad ->
   create_order now new_id order st =
   (Raise (HTTPException 500 ("Failed to create order: " +:+ overflow_msg)),
    record_calls (lookups (pre ++ [bad])) st)).
Proof.
  intros Hitems Hpre. apply accepted_lines in Hpre as [lines Hlines].
  split; [|split]; intros Hbad.
  - rewrite <- (malformed_lookups pre bad Hbad).
    by rewrite (create_order_failure _ _ _ _ pre lines bad post _ Hitems Hlines
                  (malformed_check st bad Hbad)).
  - by rewrite (create_order_failure _ _ _ _ pre lines bad post _ Hitems Hlines
                  (unknown_check st bad Hbad)).
  - by rewrite (create_order_failure _ _ _ _ pre lines bad post _ Hitems Hlines
                  (overflowing_check st bad Hbad)).
Qed.

End CreateOrder.

Section NameFilter.

Ltac each_ascii c :=
  destruct c as [[] [] [] [] [] [] [] []].

(** An escaped character is read back as that character, literally. *)
Lemma tokenize_escape_char c rest :
  tokenize (re_escape (String c rest)) = cons (TLit c) <$> tokenize (re_escape rest).
Proof. each_ascii c; reflexivity. Qed.

Lemma tokenize_escape s :
  tokenize (re_escape s) = Some (map TLit (list_ascii_of_string s)).
Proof.
  induction s as [|c s IH]; [done|].
  rewrite tokenize_escape_char, IH. done.
Qed.

Lemma build_literal s :
  build (map TLit (list_ascii_of_string s)) = Some (literal s).
Proof.
  induction s as [|c s IH]; [done|].
  simpl. simpl in IH. destruct s as [|d s]; [done|].
  simpl in *. by rewrite IH.
Qed.

(** [re.escape] always compiles, to the literal text. *)
Lemma regex_compile_escape s : regex_compile (re_escape s) = Some (literal s).
Proof. unfold regex_compile. rewrite tokenize_escape. simpl. apply build_literal. Qed.








(** Every query [list_products] builds is one the store accepts. *)
Lemma compile_filter_total name size :
  exists sel, compile_filter (build_query_filter name size) = Some sel.
Proof.
  unfold build_query_filter, compile_filter.
  destruct name as [[|c n]|], size as [[|c' v]|]; cbn -[re_escape regex_compile];
    try rewrite regex_compile_escape; eauto.
Qed.

End NameFilter.

Section Slices.

Context `{ObjectIdOps}.

Lemma insert_by_id_perm {A} (d : doc A) (l : list (doc A)) :
  insert_by_id d l ≡ₚ d :: l.
Proof.
  induction l as [|e l IH]; simpl; [done|].
  destruct (oid_leb (_id d) (_id e)); [done|].
  rewrite IH. apply Permutation_swap.
Qed.

Lemma sort_by_id_perm {A} (l : list (doc A)) : sort_by_id l ≡ₚ l.
Proof.
  unfold sort_by_id. induction l as [|d l IH]; simpl; [done|].
  by rewrite insert_by_id_perm, IH.
Qed.

Lemma sort_by_id_length {A} (l : list (doc A)) : length (sort_by_id l) = length l.
Proof. by rewrite sort_by_id_perm. Qed.

Lemma elem_of_sort_by_id {A} (d : doc A) (l : list (doc A)) :
  d ∈ sort_by_id l <-> d ∈ l.
Proof. by rewrite sort_by_id_perm. Qed.

Lemma insert_by_id_sorted {A} (d : doc A) (l : list (doc A)) :
  oid_leb_total ->
  Sorted (fun a b => oid_leb (_id a) (_id b) = true) l ->
  Sorted (fun a b => oid_leb (_id a) (_id b) = true) (insert_by_id d l).
Proof.
  intros Htotal. induction 1 as [|e l Hl IH He]; simpl; [by repeat constructor|].
  destruct (oid_leb (_id d) (_id e)) eqn:Hde.
  - constructor; [by constructor | by constructor].
  - constructor; [done|].
    assert (oid_leb (_id e) (_id d) = true) as Hed.
    { destruct (Htotal (_id d) (_id e)); [congruence | done]. }
    destruct He as [|f l' Hef]; simpl; [by constructor|].
    destruct (oid_leb (_id d) (_id f)); by constructor.
Qed.

Lemma sort_by_id_sorted {A} (l : list (doc A)) :
  oid_leb_total ->
  Sorted (fun a b => oid_leb (_id a) (_id b) = true) (sort_by_id l).
Proof.
  intros Htotal. unfold sort_by_id. induction l as [|d l IH]; simpl; [constructor|].
  by apply insert_by_id_sorted.
Qed.

Lemma Sorted_drop {A} (R : A -> A -> Prop) (l : list A) n :
  Sorted R l -> Sorted R (drop n l).
Proof.
  revert l. induction n as [|n IH]; intros l Hl; [by rewrite drop_0|].
  destruct l as [|a l]; [done|]. simpl. apply IH. by apply Sorted_inv in Hl as [Hl _].
Qed.

Lemma Sorted_take {A} (R : A -> A -> Prop) (l : list A) n :
  Sorted R l -> Sorted R (take n l).
Proof.
  revert l. induction n as [|n IH]; intros l Hl; [constructor|].
  destruct l as [|a l]; [constructor|]. simpl.
  apply Sorted_inv in Hl as [Hl Ha]. constructor; [by apply IH|].
  destruct Ha as [|b l' Hab]; [by rewrite take_nil|]. destruct n; by constructor.
Qed.

Lemma elem_of_page {A} (x : A) (l : list A) n m :
  x ∈ take n (drop m l) -> x ∈ l.
Proof.
  intros Hx. eapply elem_of_sublist; [exact Hx|].
  etrans; [apply sublist_take | apply sublist_drop].
Qed.

(** The page after a page is empty exactly when the page ends the list. *)
Lemma next_page_empty {A} (l : list A) (limit offset : Z) :
  1 <= limit -> 0 <= offset ->
  take (Z.to_nat limit) (drop (Z.to_nat (offset + limit)) l) = [] <->
  Z.of_nat (length l) <= offset + limit.
Proof.
  intros Hlimit Hoffset. split.
  - intros Hnil. apply (f_equal length) in Hnil.
    rewrite length_take, length_drop in Hnil. simpl in Hnil. lia.
  - intros Hlen. rewrite drop_ge by lia. by rewrite take_nil.
Qed.

(** Two pages in a row are one page of twice the size. *)
Lemma pages_compose {A} (l : list A) (limit offset : Z) :
  1 <= limit -> 0 <= offset ->
  take (Z.to_nat limit) (drop (Z.to_nat offset) l) ++
  take (Z.to_nat limit) (drop (Z.to_nat (offset + limit)) l)
  = take (Z.to_nat (2 * limit)) (drop (Z.to_nat offset) l).
Proof.
  intros Hlimit Hoffset.
  replace (Z.to_nat (offset + limit)) with (Z.to_nat offset + Z.to_nat limit)%nat by lia.
  rewrite <- drop_drop, take_take_drop. f_equal. lia.
Qed.

End Slices.

Section ListProducts.

Context `{ObjectIdOps}.

Lemma sort_by_id_increasing {A} (l : list (doc A)) :
  ids_increasing l -> sort_by_id l = l.
Proof.
  unfold ids_increasing, sort_by_id.
  induction 1 as [|d l Hl IH Hd]; [done|].
  simpl. rewrite IH. destruct Hd as [|e l' He _]; [done|].
  simpl. by rewrite He.
Qed.

Lemma select_increasing sel (l : list (doc ProductDict)) :
  ids_increasing l -> ids_increasing (select sel l).
Proof.
  unfold ids_increasing, select.
  induction 1 as [|d l Hl IH Hd]; simpl; [constructor|].
  destruct (sel (body d)); [|done]. constructor; [done|].
  apply Forall_forall. intros e He.
  apply list_elem_of_In, filter_In in He as [He _]. apply list_elem_of_In in He.
  by apply (proj1 (Forall_forall _ _) Hd).
Qed.

Lemma list_item_of_projection (l : list (doc ProductDict)) :
  map list_item_of
      (map (fun d => {| _id := _id d;
                        body := {| proj_name := dict_name (body d);
                                   proj_price := dict_price (body d) |} |}) l)
  = map listed l.
Proof. rewrite map_map. done. Qed.

(** The answer of [list_products] on parameters in range, for the predicate
    its query compiles to. *)
Lemma list_products_eq name size limit offset st sel :
  1 <= limit < 2 ^ 63 -> 0 <= offset < 2 ^ 63 ->
  compile_filter (build_query_filter name size) = Some sel ->
  list_products name size limit offset st =
  (Ok {| product_list_data :=
           map listed
               (take (Z.to_nat limit)
                     (drop (Z.to_nat offset)
                           (sort_by_id (select sel (products_collection st)))));
         product_list_page :=
           create_pagination_info
             offset limit
             (Z.of_nat (length (select sel (products_collection st)))) |},
   record_calls [products_count_documents_call; products_find_call] st).
Proof.
  intros Hlimit Hoffset Hsel.
  unfold list_products, try_except, bind, products_count_documents, products_find.
  rewrite Hsel.
  assert (bson_int offset && bson_int (Z.abs limit) = true) as Hfit.
  { apply andb_true_iff. rewrite !bson_int_spec. lia. }
  cbn -[compile_filter build_query_filter sort_by_id select create_pagination_info
        Z.ltb Z.eqb Z.abs bson_int].
  rewrite Hfit. simpl negb. cbv iota.
  destruct (Z.ltb_spec offset 0) as [|_]; [lia|].
  destruct (Z.eqb_spec limit 0) as [|_]; [lia|].
  unfold ret, called. rewrite record_calls_app, list_item_of_projection.
  by rewrite Z.abs_eq by lia.
Qed.

(** [list_products] when the driver cannot encode the offset. *)
Lemma list_products_unencodable name size limit offset st :
  2 ^ 63 <= offset ->
  list_products name size limit offset st =
  (Raise (HTTPException 500 ("Failed to fetch products: " +:+
                             match compile_filter (build_query_filter name size) with
                             | Some _ => bson_overflow_msg
                             | None => "Regular expression is invalid"
                             end)),
   record_calls [products_count_documents_call] st).
Proof.
  intros Hoffset.
  unfold list_products, try_except, bind, products_count_documents, products_find.
  destruct (compile_filter (build_query_filter name size)); [|done].
  assert (bson_int offset = false) as Hfit.
  { apply not_true_iff_false. rewrite bson_int_spec. lia. }
  cbn -[sort_by_id select create_pagination_info Z.ltb Z.eqb Z.abs bson_int].
  destruct (Z.ltb_spec offset 0) as [|_]; [lia|]. by rewrite Hfit.
Qed.

(** C6 (amended): the matching products are ordered by [_id] ascending,
    then the slice of up to [limit] products starting at [offset] is
    returned, each as its [id], [name] and [price]; this is the insertion
    order when identifiers grow with insertion. *)
Theorem list_products_page name size limit offset st :
  oid_leb_total -> 1 <= limit <= 100 -> 0 <= offset < 2 ^ 63 ->
  exists sel matching r,
    compile_filter (build_query_filter name size) = Some sel /\
    matching ≡ₚ select sel (products_collection st) /\
    Sorted (fun a b => oid_leb (_id a) (_id b) = true) matching /\
    (ids_increasing (products_collection st) ->
     matching = select sel (products_collection st)) /\
    list_products name size limit offset st =
    (Ok r, record_calls [products_count_documents_call; products_find_call] st) /\
    product_list_data r =
    map listed (take (Z.to_nat limit) (drop (Z.to_nat offset) matching)).
Proof.
  intros Htotal Hlimit Hoffset.
  destruct (compile_filter_total name size) as [sel Hsel].
  exists sel, (sort_by_id (select sel (products_collection st))). eexists.
  split; [done|]. split; [apply sort_by_id_perm|].
  split; [by apply sort_by_id_sorted|].
  split; [intros Hids; by apply sort_by_id_increasing, select_increasing|].
  split; [apply list_products_eq; (done || lia)|]. done.
Qed.

End ListProducts.

Section UserOrders.

Context `{ObjectIdOps}.

Lemma product_map_from_Some details : forall (m : gmap string (doc string)) k p,
  foldl (fun m p => <[oid_str (_id p) := p]> m) m details !! k = Some p ->
  (p ∈ details /\ oid_str (_id p) = k) \/ m !! k = Some p.
Proof.
  induction details as [|a details IH]; intros m k p Hk; simpl in Hk; [by right|].
  apply IH in Hk as [[Hin Hstr]|Hk].
  - left. split; [by right | done].
  - destruct (decide (oid_str (_id a) = k)) as [Heq|Hne].
    + rewrite Heq, lookup_insert_eq in Hk. injection Hk as <-.
      left. split; [by left | done].
    + rewrite lookup_insert_ne in Hk by done. by right.
Qed.

Lemma product_map_from_None details : forall (m : gmap string (doc string)) k,
  foldl (fun m p => <[oid_str (_id p) := p]> m) m details !! k = None ->
  forall p, p ∈ details -> oid_str (_id p) <> k.
Proof.
  induction details as [|a details IH]; intros m k Hk p Hin.
  - by apply not_elem_of_nil in Hin.
  - simpl in Hk. apply elem_of_cons in Hin as [->|Hin]; [|by eapply IH].
    intros Heq. clear IH. revert Hk.
    assert (forall l (m' : gmap string (doc string)),
              is_Some (m' !! k) ->
              is_Some (foldl (fun m p => <[oid_str (_id p) := p]> m) m' l !! k)) as Hkeep.
    { induction l as [|b l IHl]; intros m' Hm'; [done|]. simpl. apply IHl.
      destruct (decide (oid_str (_id b) = k)) as [->|Hne].
      - rewrite lookup_insert_eq. eauto.
      - by rewrite lookup_insert_ne. }
    intros Hk. destruct (Hkeep details (<[oid_str (_id a) := a]> m)) as [x Hx].
    + rewrite Heq, lookup_insert_eq. eauto.
    + congruence.
Qed.

Lemma elem_of_lookup_products products o p' :
  p' ∈ lookup_products products o <->
  exists p, p ∈ products /\
            oid_str (_id p) ∈ map line_productid (dict_items (body o)) /\
            p' = {| _id := _id p; body := dict_name (body p) |}.
Proof.
  unfold lookup_products. rewrite list_elem_of_fmap. split.
  - intros (p & -> & Hp). apply list_elem_of_In, filter_In in Hp as [Hp Hex].
    apply existsb_exists in Hex as (k & Hk & Heq). apply String.eqb_eq in Heq as <-.
    exists p. by rewrite !list_elem_of_In.
  - intros (p & Hp & Hk & ->). exists p. split; [done|].
    apply list_elem_of_In, filter_In. split; [by apply list_elem_of_In|].
    apply existsb_exists. exists (oid_str (_id p)).
    split; [by apply list_elem_of_In | apply String.eqb_refl].
Qed.

(** The loop over the items of one order. *)
Lemma order_items_enriched products o : forall lines,
  lines ⊆ dict_items (body o) ->
  enriched products lines
    (omap (fun item =>
             match product_map_of (lookup_products products o) !! line_productid item with
             | Some product_info =>
               Some {| productDetails :=
                         {| details_name := body product_info;
                            details_id := line_productid item |};
                       detail_qty := line_qty item |}
             | None => None
             end) lines).
Proof.
  induction lines as [|line lines IH]; intros Hsub; [constructor|].
  assert (line ∈ dict_items (body o)) as Hline by (apply Hsub; by left).
  assert (lines ⊆ dict_items (body o)) as Hrest.
  { intros x Hx. apply Hsub. by right. }
  simpl. unfold product_map_of.
  destruct (foldl _ ∅ (lookup_products products o) !! line_productid line)
    as [p'|] eqn:Hk.
  - apply product_map_from_Some in Hk as [[Hin Hstr]|Hk]; [|by rewrite lookup_empty in Hk].
    apply elem_of_lookup_products in Hin as (p & Hp & _ & ->). simpl in *.
    by apply (enriched_keep products line lines _ p); [..|apply IH].
  - apply enriched_omit; [|by apply IH]. intros p Hp Hstr.
    apply (product_map_from_None _ _ _ Hk {| _id := _id p; body := dict_name (body p) |});
      [|done].
    apply elem_of_lookup_products. exists p. split; [done|]. split; [|done].
    rewrite Hstr. apply list_elem_of_fmap. by exists line.
Qed.

Lemma Forall2_map_all {A B} (P : A -> B -> Prop) (g : A -> B) (l : list A) :
  (forall x, P x (g x)) -> Forall2 P l (map g l).
Proof. intros HP. induction l; simpl; by constructor. Qed.

(** [get_user_orders] on any parameters. *)
Lemma get_user_orders_cases user_id limit offset st :
  get_user_orders user_id limit offset st =
  if negb (bson_int offset && bson_int limit) then
    (Raise (HTTPException 500 ("Failed to fetch orders: " +:+ bson_overflow_msg)),
     record_calls [orders_count_documents_call] st)
  else if (offset <? 0) || (limit <=? 0) then
    (Raise (HTTPException 500 ("Failed to fetch orders: "
                               +:+ "invalid argument to $skip or $limit")),
     record_calls [orders_count_documents_call; orders_aggregate_call] st)
  else
    (Ok {| order_list_data :=
             map (fun o => order_detail_of
                             {| order_doc := o;
                                product_details :=
                                  lookup_products (products_collection st) o |})
                 (orders_page st user_id limit offset);
           order_list_page :=
             create_pagination_info
               offset limit
               (Z.of_nat (length (user_orders user_id (orders_collection st)))) |},
     record_calls [orders_count_documents_call; orders_aggregate_call] st).
Proof.
  unfold get_user_orders, try_except, bind, orders_count_documents, orders_aggregate.
  cbn -[sort_by_id user_orders create_pagination_info Z.ltb Z.leb order_detail_of
        bson_int].
  destruct (bson_int offset && bson_int limit); simpl negb; cbv iota; [|done].
  destruct ((offset <? 0) || (limit <=? 0)).
  - unfold raise, called. by rewrite record_calls_app.
  - cbn -[sort_by_id user_orders create_pagination_info order_detail_of].
    unfold ret, called, orders_page. by rewrite record_calls_app, map_map.
Qed.

(** The answer of [get_user_orders] on parameters in range. *)
Lemma get_user_orders_eq user_id limit offset st :
  1 <= limit < 2 ^ 63 -> 0 <= offset < 2 ^ 63 ->
  get_user_orders user_id limit offset st =
  (Ok {| order_list_data :=
           map (fun o => order_detail_of
                           {| order_doc := o;
                              product_details :=
                                lookup_products (products_collection st) o |})
               (orders_page st user_id limit offset);
         order_list_page :=
           create_pagination_info
             offset limit
             (Z.of_nat (length (user_orders user_id (orders_collection st)))) |},
   record_calls [orders_count_documents_call; orders_aggregate_call] st).
Proof.
  intros Hlimit Hoffset. rewrite get_user_orders_cases.
  assert (bson_int offset && bson_int limit = true) as ->.
  { apply andb_true_iff. rewrite !bson_int_spec. lia. }
  simpl negb. cbv iota.
  destruct (Z.ltb_spec offset 0) as [|_]; [lia|].
  by destruct (Z.leb_spec limit 0) as [|_]; [lia|].
Qed.

(** C5: for a limit and an offset the request layer accepts and the driver
    can encode, the request succeeds whatever the orders refer to; of each
    order of the page, the lines whose product the join does not find are
    left out, and the other lines are returned in order with the product's
    current name, the product id and the quantity. *)
Theorem get_user_orders_enriched user_id limit offset st :
  1 <= limit <= 100 -> 0 <= offset < 2 ^ 63 ->
  exists r,
    get_user_orders user_id limit offset st =
    (Ok r, record_calls [orders_count_documents_call; orders_aggregate_call] st) /\
    Forall2 (fun o d =>
               detail_id d = oid_str (_id o) /\
               enriched (products_collection st) (dict_items (body o)) (detail_items d))
            (orders_page st user_id limit offset) (order_list_data r).
Proof.
  intros Hlimit Hoffset. eexists. split; [apply get_user_orders_eq; lia|].
  simpl. apply Forall2_map_all. intros o. split; [done|].
  by apply order_items_enriched.
Qed.

(** C9: for a limit and an offset the request layer accepts and the driver
    can encode, the total of each returned order is the total stored in the
    order document, whatever lines the enrichment leaves out; the stored
    orders are not changed by the request. *)
Theorem get_user_orders_total user_id limit offset st :
  1 <= limit <= 100 -> 0 <= offset < 2 ^ 63 ->
  exists r st',
    get_user_orders user_id limit offset st = (Ok r, st') /\
    orders_collection st' = orders_collection st /\
    Forall2 (fun o d =>
               detail_id d = oid_str (_id o) /\
               detail_total d = dict_total (body o))
            (orders_page st user_id limit offset) (order_list_data r).
Proof.
  intros Hlimit Hoffset. do 2 eexists. split; [apply get_user_orders_eq; lia|].
  split; [done|]. simpl. by apply Forall2_map_all.
Qed.

End UserOrders.

Section Requests.

Context `{ObjectIdOps}.

Lemma Query_limit_errors limit :
  limit_out_of_range limit ->
  Exists (names_parameter "limit") (snd (Query "limit" 10 (Some 1) (Some 100) limit)).
Proof.
  intros (v & -> & Hv). unfold Query. simpl.
  destruct (Z.ltb_spec v 1), (Z.ltb_spec 100 v); try lia; by constructor.
Qed.

Lemma Query_offset_errors offset :
  offset_out_of_range offset ->
  Exists (names_parameter "offset") (snd (Query "offset" 0 (Some 0) None offset)).
Proof.
  intros (v & -> & Hv). unfold Query. simpl.
  destruct (Z.ltb_spec v 0); [by constructor | lia].
Qed.

Lemma validated_errors {A} (errors : list ValidationError)
  (run : Store -> response A * Store) st :
  errors <> [] -> forallb renderable errors = true ->
  validated errors run st = (ValidationErrorResponse 422 errors, st).
Proof. destruct errors; [done|]. intros _ Hr. unfold validated. by rewrite Hr. Qed.

(** The errors of an integer parameter can always be rendered. *)
Lemma Query_renderable param default ge le supplied :
  forallb renderable (snd (Query param default ge le supplied)) = true.
Proof.
  unfold Query. destruct supplied as [v|]; [|done]. simpl.
  rewrite forallb_app. apply andb_true_iff.
  split; [destruct ge as [b|] | destruct le as [b|]]; try done;
    by destruct (_ <? _).
Qed.

Lemma Exists_not_nil {A} (P : A -> Prop) (l : list A) : Exists P l -> l <> [].
Proof. by destruct 1. Qed.

(** C7 (amended): a [limit] outside 1..100 or a negative [offset] makes
    both listing requests fail with status 422, the errors naming the
    offending parameter, and the store is left exactly as it was: no call
    is made to it. *)
Theorem out_of_range_rejected name size user_id limit offset st :
  limit_out_of_range limit \/ offset_out_of_range offset ->
  exists errors,
    GET_products name size limit offset st = (ValidationErrorResponse 422 errors, st) /\
    GET_orders user_id limit offset st = (ValidationErrorResponse 422 errors, st) /\
    (limit_out_of_range limit -> Exists (names_parameter "limit") errors) /\
    (offset_out_of_range offset -> Exists (names_parameter "offset") errors).
Proof.
  intros Hout. unfold GET_products, GET_orders.
  pose proof (Query_limit_errors limit) as Hl.
  pose proof (Query_offset_errors offset) as Ho.
  pose proof (Query_renderable "limit" 10 (Some 1) (Some 100) limit) as Hrl.
  pose proof (Query_renderable "offset" 0 (Some 0) None offset) as Hro.
  destruct (Query "limit" 10 (Some 1) (Some 100) limit) as [lv le].
  destruct (Query "offset" 0 (Some 0) None offset) as [ov oe].
  simpl in Hl, Ho, Hrl, Hro. exists (le ++ oe).
  assert (forallb renderable (le ++ oe) = true) as Hr.
  { rewrite forallb_app. by rewrite Hrl, Hro. }
  assert (le ++ oe <> []) as Hne.
  { destruct Hout as [Hout|Hout].
    - apply Hl, Exists_not_nil in Hout. by destruct le.
    - apply Ho, Exists_not_nil in Hout. by destruct le, oe. }
  split; [by apply validated_errors|]. split; [by apply validated_errors|].
  split; intros Hx; apply Exists_app; auto.
Qed.

(** C8 (amended): an empty list is accepted.  A product with a valid price
    and no sizes is created, and an order with no items is created with
    total 0.0; each request answers 201 and inserts one document. *)
Theorem empty_lists_accepted now new_id st :
  (forall name price,
     PrimFloat.ltb PrimFloat.zero price = true ->
     POST_products now new_id {| name := name; price := price; sizes := [] |} st =
     (Response 201 {| product_response_id := oid_str new_id |},
      {| products_collection :=
           products_collection st ++
           [{| _id := new_id;
               body := {| dict_name := name; dict_price := price;
                          dict_sizes := []; dict_created_at := now |} |}];
         orders_collection := orders_collection st;
         calls := calls st ++ [products_insert_one_call] |})) /\
  (forall user,
     POST_orders now new_id {| userId := user; items := [] |} st =
     (Response 201 {| order_response_id := oid_str new_id |},
      {| products_collection := products_collection st;
         orders_collection :=
           orders_collection st ++
           [{| _id := new_id;
               body := {| dict_userId := user; dict_items := [];
                          dict_total := PrimFloat.zero; dict_status := "created";
                          order_created_at := now |} |}];
         calls := calls st ++ [orders_insert_one_call] |})).
Proof.
  split.
  - intros name price Hprice. unfold POST_products, validate_Product. simpl.
    by rewrite Hprice.
  - intros user. unfold POST_orders, validate_CreateOrder, respond, create_order,
      try_except, bind, orders_insert_one, ret. done.
Qed.

End Requests.

(** The sample order: two items priced 10.00 x 2 and 5.00 x 3 total 35.00. *)
Example sample_order_total :
  exists st',
    create_order 7 new_order_id sample_order sample_store =
    (Ok {| order_response_id := oid_str new_order_id |}, st') /\
    map (fun o => dict_total (body o)) (orders_collection st') = [35%float] /\
    map (fun o => map line_item_total (dict_items (body o))) (orders_collection st')
    = [[20%float; 15%float]].
Proof. eexists. split; [reflexivity|]. split; reflexivity. Qed.

Lemma sample_items_accepted :
  accepted sample_store two_shirts /\ accepted sample_store three_caps.
Proof.
  split; (split; [do 2 eexists; split; reflexivity | eexists; reflexivity]).
Qed.

Lemma create_order_total_witness :
  exists d,
    create_order 7 new_order_id sample_order sample_store =
    (Ok {| order_response_id := oid_str new_order_id |},
     {| products_collection := products_collection sample_store;
        orders_collection :=
          orders_collection sample_store ++ [{| _id := new_order_id; body := d |}];
        calls := calls sample_store ++ lookups (items sample_order)
                 ++ [orders_insert_one_call] |}) /\
    Forall2 (annotated sample_store) (items sample_order) (dict_items d) /\
    dict_total d = float_sum (map line_item_total (dict_items d)) /\
    [20%float; 15%float] = map line_item_total (dict_items d) /\
    35%float = dict_total d.
Proof.
  destruct sample_items_accepted as [[Hs1 Hs2] [Hc1 Hc2]].
  destruct (create_order_total 7 new_order_id sample_order sample_store)
    as [Hsuccess _]; [repeat constructor; assumption|].
  destruct Hsuccess as (d & Hrun & _ & _ & Hlines & Htotal).
  { repeat constructor; simpl; lia. }
  exists d. split; [exact Hrun|]. split; [exact Hlines|]. split; [exact Htotal|].
  pose proof (f_equal (fun r => map (fun o => (map line_item_total (dict_items (body o)),
                                               dict_total (body o)))
                                    (orders_collection (snd r))) Hrun) as Hd.
  vm_compute in Hd. injection Hd as Hd1 Hd2. split; assumption.
Defined.

Lemma create_order_rejection_witness :
  fst (create_order 7 new_order_id mixed_order sample_store) =
  Raise (HTTPException 400 ("Invalid product ID: " +:+ productid bad_id_item)) /\
  orders_collection (snd (create_order 7 new_order_id mixed_order sample_store)) =
  orders_collection sample_store.
Proof.
  destruct (create_order_rejection 7 new_order_id mixed_order sample_store) as [Hfirst Hfail].
  destruct (Hfirst [two_shirts] bad_id_item [absent_item]) as [H400 _].
  - reflexivity.
  - repeat constructor; apply sample_items_accepted.
  - split.
    + apply H400. reflexivity.
    + eapply Hfail. apply H400. reflexivity.
Defined.

(** The claim read literally fails: a malformed id that comes after an
    unknown one is not the id the answer names, and the answer is not 400. *)
Lemma create_order_rejection_counterexample :
  In bad_id_item (items unknown_first_order) /\
  malformed bad_id_item /\
  fst (create_order 7 new_order_id unknown_first_order sample_store) =
  Raise (HTTPException 404 ("Product not found: " +:+ productid absent_item)) /\
  fst (create_order 7 new_order_id unknown_first_order sample_store) <>
  Raise (HTTPException 400 ("Invalid product ID: " +:+ productid bad_id_item)).
Proof.
  split; [right; left; reflexivity|]. split; [reflexivity|].
  split; [reflexivity|]. intros Heq. vm_compute in Heq. discriminate Heq.
Qed.

Lemma create_order_first_invalid_witness :
  create_order 7 new_order_id mixed_order sample_store =
  (Raise (HTTPException 400 ("Invalid product ID: " +:+ productid bad_id_item)),
   record_calls (lookups [two_shirts]) sample_store).
Proof.
  apply (create_order_first_invalid 7 new_order_id mixed_order sample_store
           [two_shirts] bad_id_item [absent_item]).
  - reflexivity.
  - repeat constructor; apply sample_items_accepted.
  - reflexivity.
Defined.

(** Filtering by [a.b] keeps the name with a literal [a.b] and drops the
    name where another character stands between [a] and [b]; the pattern
    [a.b] itself, not escaped, matches both. *)
Example name_filter_dot :
  map list_item_name
      (match fst (list_products (Some "A.B") None 10 0 sample_store) with
       | Ok r => product_list_data r
       | Raise _ => []
       end) = ["Shirt a.b"] /\
  (regex_compile "a.b" ≫= fun re =>
     Some (regex_search true re "Shirt a.b", regex_search true re "Cap axb"))
  = Some (true, true).
Proof. split; reflexivity. Qed.


Lemma list_products_page_witness :
  exists sel matching r,
    compile_filter (build_query_filter (Some "a") None) = Some sel /\
    matching ≡ₚ select sel (products_collection store_cap_then_shirt) /\
    Sorted (fun a b => oid_leb (_id a) (_id b) = true) matching /\
    (ids_increasing (products_collection store_cap_then_shirt) ->
     matching = select sel (products_collection store_cap_then_shirt)) /\
    list_products (Some "a") None 1 1 store_cap_then_shirt =
    (Ok r, record_calls [products_count_documents_call; products_find_call]
                        store_cap_then_shirt) /\
    product_list_data r = map listed (take (Z.to_nat 1) (drop (Z.to_nat 1) matching)).
Proof.
  apply (list_products_page (Some "a") None 1 1 store_cap_then_shirt).
  - intros a b. apply String.leb_total.
  - lia.
  - lia.
Defined.

(** The claim read literally fails: the cap was created before the shirt,
    and the listing returns the shirt first, because its identifier is the
    smaller one. *)
Lemma list_products_page_counterexample :
  reachable store_cap_then_shirt /\
  map (fun d => (dict_name (body d), dict_created_at (body d)))
      (products_collection store_cap_then_shirt)
  = [("Cap axb", 1); ("Shirt a.b", 2)] /\
  exists r,
    fst (list_products None None 10 0 store_cap_then_shirt) = Ok r /\
    map list_item_name (product_list_data r) = ["Shirt a.b"; "Cap axb"] /\
    product_list_data r <>
    map listed (take 10 (drop 0 (products_collection store_cap_then_shirt))).
Proof.
  split; [do 2 constructor; constructor|]. split; [reflexivity|].
  eexists. split; [reflexivity|]. split; [reflexivity|].
  intros Heq. vm_compute in Heq. discriminate Heq.
Qed.

(** Both sample products contain an [a]; with the cap created first, the
    second page of size 1 is the cap, whose identifier is the larger one. *)
Example list_products_second_page :
  fst (list_products (Some "a") None 1 1 store_cap_then_shirt) =
  Ok {| product_list_data :=
          [{| list_item_id := cap_id; list_item_name := "Cap axb";
              list_item_price := 5%float |}];
        product_list_page :=
          {| page_next := None; page_limit := 1; page_previous := Some 0 |} |}.
Proof. reflexivity. Qed.

Lemma get_user_orders_enriched_witness :
  exists r,
    get_user_orders "u1" 10 0 store_with_order =
    (Ok r, record_calls [orders_count_documents_call; orders_aggregate_call]
                        store_with_order) /\
    Forall2 (fun o d =>
               detail_id d = oid_str (_id o) /\
               enriched (products_collection store_with_order)
                        (dict_items (body o)) (detail_items d))
            (orders_page store_with_order "u1" 10 0) (order_list_data r).
Proof. apply (get_user_orders_enriched "u1" 10 0 store_with_order); lia. Defined.

Lemma get_user_orders_total_witness :
  exists r st',
    get_user_orders "u1" 10 0 store_with_order = (Ok r, st') /\
    orders_collection st' = orders_collection store_with_order /\
    Forall2 (fun o d =>
               detail_id d = oid_str (_id o) /\
               detail_total d = dict_total (body o))
            (orders_page store_with_order "u1" 10 0) (order_list_data r).
Proof. apply (get_user_orders_total "u1" 10 0 store_with_order); lia. Defined.

(** The order whose second product is gone is returned with its first line
    only, and with the total of both lines. *)
Example past_order_detail :
  fst (get_user_orders "u1" 10 0 store_with_order) =
  Ok {| order_list_data :=
          [{| detail_id := "64b7f0c2a1b2c3d4e5f60100";
              detail_items :=
                [{| productDetails := {| details_name := "Shirt a.b";
                                         details_id := shirt_id |};
                    detail_qty := 2 |}];
              detail_total := 35%float |}];
        order_list_page :=
          {| page_next := None; page_limit := 10; page_previous := None |} |}.
Proof. vm_compute. reflexivity. Qed.

Lemma out_of_range_rejected_witness :
  exists errors,
    GET_products None None (Some 0) (Some (-1)) sample_store =
    (ValidationErrorResponse 422 errors, sample_store) /\
    GET_orders "u1" (Some 0) (Some (-1)) sample_store =
    (ValidationErrorResponse 422 errors, sample_store) /\
    (limit_out_of_range (Some 0) -> Exists (names_parameter "limit") errors) /\
    (offset_out_of_range (Some (-1)) -> Exists (names_parameter "offset") errors).
Proof.
  apply (out_of_range_rejected None None "u1" (Some 0) (Some (-1)) sample_store).
  left. exists 0. split; [reflexivity | lia].
Defined.

(** The status of a request with [limit = 0] is 422, not 400. *)
Lemma out_of_range_rejected_counterexample :
  limit_out_of_range (Some 0) /\
  response_status (fst (GET_products None None (Some 0) None sample_store)) <> 400 /\
  response_status (fst (GET_orders "u1" (Some 0) None sample_store)) <> 400.
Proof.
  split; [exists 0; split; [reflexivity | lia]|]. split; vm_compute; discriminate.
Qed.

Lemma empty_lists_accepted_witness :
  POST_products 7 new_order_id {| name := "Scarf"; price := 3%float; sizes := [] |}
                sample_store =
  (Response 201 {| product_response_id := oid_str new_order_id |},
   {| products_collection :=
        products_collection sample_store ++
        [{| _id := new_order_id;
            body := {| dict_name := "Scarf"; dict_price := 3%float;
                       dict_sizes := []; dict_created_at := 7 |} |}];
      orders_collection := orders_collection sample_store;
      calls := calls sample_store ++ [products_insert_one_call] |}).
Proof.
  apply (proj1 (empty_lists_accepted 7 new_order_id sample_store)). reflexivity.
Defined.

(** Requests with an empty [sizes] list and with an empty [items] list are
    not refused, and each inserts a document. *)
Lemma empty_lists_counterexample :
  ~ (is_validation_error
       (fst (POST_products 7 new_order_id
                           {| name := "Scarf"; price := 3%float; sizes := [] |}
                           sample_store)) /\
     products_collection
       (snd (POST_products 7 new_order_id
                           {| name := "Scarf"; price := 3%float; sizes := [] |}
                           sample_store))
     = products_collection sample_store) /\
  ~ (is_validation_error
       (fst (POST_orders 7 new_order_id {| userId := "u1"; items := [] |} sample_store)) /\
     orders_collection
       (snd (POST_orders 7 new_order_id {| userId := "u1"; items := [] |} sample_store))
     = orders_collection sample_store).
Proof. split; intros [Hrejected _]; vm_compute in Hrejected; exact Hrejected. Qed.

(** * Further properties *)

Section Pagination.

(** X1: following [next] and then [previous] leads back to the offset one
    started from; following [previous] and then [next] does so when the
    offset is at least one page in and is below the total (a [previous]
    that was clamped to 0 is not undone). *)
Theorem next_previous_round_trip (offset limit total_count : Z) :
  0 <= offset -> 1 <= limit ->
  (forall n,
     page_next (create_pagination_info offset limit total_count) = Some n ->
     page_previous (create_pagination_info n limit total_count) = Some offset) /\
  (forall m,
     page_previous (create_pagination_info offset limit total_count) = Some m ->
     limit <= offset -> offset < total_count ->
     page_next (create_pagination_info m limit total_count) = Some offset).
Proof.
  intros Hoffset Hlimit. unfold create_pagination_info. simpl. split.
  - intros n Hn. destruct (Z.ltb_spec (offset + limit) total_count); [|done].
    injection Hn as <-. destruct (Z.ltb_spec 0 (offset + limit)); [|lia].
    f_equal. lia.
  - intros m Hm Hpage Htotal. destruct (Z.ltb_spec 0 offset); [|done].
    injection Hm as <-. rewrite Z.max_r by lia.
    destruct (Z.ltb_spec (offset - limit + limit) total_count); [|lia].
    f_equal. lia.
Qed.

(** X2: a [next] lies strictly between the offset and the total, and a
    [previous] lies at or above 0 and strictly below the offset: walking
    either way makes progress and stays in range. *)
Theorem pagination_progress (offset limit total_count : Z) :
  0 <= offset -> 1 <= limit ->
  (forall n,
     page_next (create_pagination_info offset limit total_count) = Some n ->
     offset < n < total_count) /\
  (forall m,
     page_previous (create_pagination_info offset limit total_count) = Some m ->
     0 <= m < offset).
Proof.
  intros Hoffset Hlimit. unfold create_pagination_info. simpl. split.
  - intros n Hn. destruct (Z.ltb_spec (offset + limit) total_count); [|done].
    injection Hn as <-. lia.
  - intros m Hm. destruct (Z.ltb_spec 0 offset); [|done].
    injection Hm as <-. lia.
Qed.

End Pagination.

Lemma next_previous_round_trip_witness :
  (forall n,
     page_next (create_pagination_info 20 10 45) = Some n ->
     page_previous (create_pagination_info n 10 45) = Some 20) /\
  (forall m,
     page_previous (create_pagination_info 20 10 45) = Some m ->
     10 <= 20 -> 20 < 45 ->
     page_next (create_pagination_info m 10 45) = Some 20).
Proof. apply (next_previous_round_trip 20 10 45); lia. Defined.

Lemma pagination_progress_witness :
  (forall n,
     page_next (create_pagination_info 20 10 45) = Some n -> 20 < n < 45) /\
  (forall m,
     page_previous (create_pagination_info 20 10 45) = Some m -> 0 <= m < 20).
Proof. apply (pagination_progress 20 10 45); lia. Defined.

(** A [previous] clamped to 0 is not undone by [next]: from offset 3 with
    pages of 10, [previous] is 0 and the [next] of 0 is 10. *)
Example clamped_previous :
  page_previous (create_pagination_info 3 10 45) = Some 0 /\
  page_next (create_pagination_info 0 10 45) = Some 10.
Proof. split; reflexivity. Qed.

Section ListProductsMore.

Context `{ObjectIdOps}.

Lemma size_matches_has_size v d : size_matches (Some v) d = true <-> has_size v d.
Proof.
  unfold size_matches, has_size. rewrite existsb_exists. split.
  - intros (s & Hs & Heq). exists s. by rewrite list_elem_of_In, <- String.eqb_eq.
  - intros (s & Hs & Heq). exists s. by rewrite <- list_elem_of_In, String.eqb_eq.
Qed.

Lemma effective_size_spec size d :
  size_matches (effective_size size) d = true <->
  forall v, size = Some v -> v <> EmptyString -> has_size v d.
Proof.
  destruct size as [[|c v]|]; cbn -[size_matches].
  - split; [by intros _ v [= <-] | done].
  - rewrite size_matches_has_size. split; [by intros Hd v' [= <-] | intros Hd].
    by apply Hd.
  - split; [by intros _ v | done].
Qed.

(** The predicate of a query implies its size filter. *)
Lemma compile_filter_size name size :
  exists sel,
    compile_filter (build_query_filter name size) = Some sel /\
    forall d, sel d = true -> size_matches (effective_size size) d = true.
Proof.
  unfold build_query_filter, compile_filter, effective_size.
  destruct name as [[|c n]|], size as [[|c' v]|];
    cbn -[re_escape regex_compile size_matches regex_search];
    try rewrite regex_compile_escape;
    (eexists; split; [done|]); intros d Hd; try done;
    by apply andb_true_iff in Hd as [_ Hd].
Qed.

Lemma select_all (l : list (doc ProductDict)) :
  select (size_matches None) l = l.
Proof. unfold select. induction l as [|d l IH]; simpl; [done|]. f_equal. exact IH. Qed.

Lemma elem_of_select sel (d : doc ProductDict) l :
  d ∈ select sel l <-> d ∈ l /\ sel (body d) = true.
Proof. unfold select. by rewrite !list_elem_of_In, filter_In. Qed.

Lemma map_listed_nil (l : list (doc ProductDict)) : map listed l = [] <-> l = [].
Proof. by destruct l. Qed.

(** X3: a page of products never holds more than [limit] items, and its
    [next] is absent exactly when the page that would follow is empty. *)
Theorem list_products_next_page name size limit offset st :
  1 <= limit -> 0 <= offset -> offset + limit < 2 ^ 63 ->
  exists r r',
    fst (list_products name size limit offset st) = Ok r /\
    fst (list_products name size limit (offset + limit) st) = Ok r' /\
    Z.of_nat (length (product_list_data r)) <= limit /\
    (page_next (product_list_page r) = None <-> product_list_data r' = []).
Proof.
  intros Hlimit Hoffset Hfit. destruct (compile_filter_total name size) as [sel Hsel].
  rewrite (list_products_eq name size limit offset st sel) by (done || lia).
  rewrite (list_products_eq name size limit (offset + limit) st sel) by (done || lia).
  do 2 eexists. split; [done|]. split; [done|]. simpl. split.
  - rewrite length_map, length_take. lia.
  - rewrite map_listed_nil, next_page_empty, sort_by_id_length by done.
    destruct (Z.ltb_spec (offset + limit)
                (Z.of_nat (length (select sel (products_collection st))))).
    + split; [done | lia].
    + split; [lia | done].
Qed.

(** X5: the page at [offset] followed by the page at [offset + limit] is
    the page of size [2 * limit] at [offset]: consecutive pages neither
    overlap nor skip a product. *)
Theorem list_products_pages_compose name size limit offset st :
  1 <= limit -> 0 <= offset -> offset + limit < 2 ^ 63 -> 2 * limit < 2 ^ 63 ->
  exists r1 r2 r12,
    fst (list_products name size limit offset st) = Ok r1 /\
    fst (list_products name size limit (offset + limit) st) = Ok r2 /\
    fst (list_products name size (2 * limit) offset st) = Ok r12 /\
    product_list_data r1 ++ product_list_data r2 = product_list_data r12.
Proof.
  intros Hlimit Hoffset Hfit Hfit2. destruct (compile_filter_total name size) as [sel Hsel].
  rewrite (list_products_eq name size limit offset st sel) by (done || lia).
  rewrite (list_products_eq name size limit (offset + limit) st sel) by (done || lia).
  rewrite (list_products_eq name size (2 * limit) offset st sel) by (done || lia).
  do 3 eexists. split; [done|]. split; [done|]. split; [done|]. simpl.
  by rewrite <- map_app, pages_compose.
Qed.

(** X6: every product of a page is a stored product that passes the size
    filter in force: it has a size entry with exactly the requested label
    (an empty label is no filter). *)
Theorem list_products_sound name size limit offset st :
  1 <= limit < 2 ^ 63 -> 0 <= offset < 2 ^ 63 ->
  exists ds r,
    fst (list_products name size limit offset st) = Ok r /\
    product_list_data r = map listed ds /\
    forall d, d ∈ ds ->
              d ∈ products_collection st /\
              (forall v, size = Some v -> v <> EmptyString -> has_size v (body d)).
Proof.
  intros Hlimit Hoffset. destruct (compile_filter_size name size) as (sel & Hsel & Hspec).
  rewrite (list_products_eq name size limit offset st sel) by done.
  do 2 eexists. split; [done|]. split; [done|].
  intros d Hd. apply elem_of_page, elem_of_sort_by_id, elem_of_select in Hd as [Hd Hsel'].
  split; [done|]. by apply effective_size_spec, Hspec.
Qed.

(** [create_product] on any product. *)
Lemma create_product_cases now new_id product st :
  create_product now new_id product st =
  if forallb (fun s => bson_int (quantity s)) (sizes product) then
    (Ok {| product_response_id := oid_str new_id |},
     {| products_collection :=
          products_collection st ++
          [{| _id := new_id;
              body := {| dict_name := name product; dict_price := price product;
                         dict_sizes := sizes product; dict_created_at := now |} |}];
        orders_collection := orders_collection st;
        calls := calls st ++ [products_insert_one_call] |})
  else
    (Raise (HTTPException 500 ("Failed to create product: " +:+ bson_overflow_msg)), st).
Proof.
  unfold create_product, try_except, bind, products_insert_one. cbn -[bson_int].
  by destruct (forallb _ (sizes product)).
Qed.

(** [create_product] when the driver can encode every size quantity. *)
Lemma create_product_eq now new_id product st :
  Forall (fun s => - 2 ^ 63 <= quantity s < 2 ^ 63) (sizes product) ->
  create_product now new_id product st =
  (Ok {| product_response_id := oid_str new_id |},
   {| products_collection :=
        products_collection st ++
        [{| _id := new_id;
            body := {| dict_name := name product; dict_price := price product;
                       dict_sizes := sizes product; dict_created_at := now |} |}];
      orders_collection := orders_collection st;
      calls := calls st ++ [products_insert_one_call] |}).
Proof.
  intros Hfit. rewrite create_product_cases.
  assert (forallb (fun s => bson_int (quantity s)) (sizes product) = true) as ->; [|done].
  apply forallb_forall. intros s Hs. apply bson_int_spec.
  by apply (proj1 (Forall_forall _ _) Hfit), list_elem_of_In.
Qed.

(** X7: a product that has just been created, with size quantities the
    driver can encode, is listed, with the name and price submitted and the
    text of its new identifier, by a listing without filters whose first
    page is large enough for the whole collection. *)
Theorem created_product_listed now new_id product limit st :
  Forall (fun s => - 2 ^ 63 <= quantity s < 2 ^ 63) (sizes product) ->
  Z.of_nat (length (products_collection st)) < limit < 2 ^ 63 ->
  exists r,
    fst (list_products None None limit 0
                       (snd (create_product now new_id product st))) = Ok r /\
    {| list_item_id := oid_str new_id;
       list_item_name := name product;
       list_item_price := price product |} ∈ product_list_data r /\
    length (product_list_data r) = S (length (products_collection st)).
Proof.
  intros Hfit Hlen. rewrite (create_product_eq _ _ _ _ Hfit).
  rewrite (list_products_eq None None limit 0 _ (size_matches None)) by (done || lia).
  eexists. split; [done|]. simpl. rewrite select_all, drop_0.
  rewrite take_ge by (rewrite sort_by_id_length, length_app; simpl; lia). split.
  - apply list_elem_of_fmap. eexists. split; [|apply elem_of_sort_by_id].
    2: { apply elem_of_app. right. by left. }
    done.
  - rewrite length_map, sort_by_id_length, length_app. simpl. lia.
Qed.

End ListProductsMore.

Lemma list_products_next_page_witness :
  exists r r',
    fst (list_products None None 1 1 sample_store) = Ok r /\
    fst (list_products None None 1 (1 + 1) sample_store) = Ok r' /\
    Z.of_nat (length (product_list_data r)) <= 1 /\
    (page_next (product_list_page r) = None <-> product_list_data r' = []).
Proof. apply (list_products_next_page None None 1 1 sample_store); lia. Defined.

Lemma list_products_pages_compose_witness :
  exists r1 r2 r12,
    fst (list_products None None 1 0 sample_store) = Ok r1 /\
    fst (list_products None None 1 (0 + 1) sample_store) = Ok r2 /\
    fst (list_products None None (2 * 1) 0 sample_store) = Ok r12 /\
    product_list_data r1 ++ product_list_data r2 = product_list_data r12.
Proof. apply (list_products_pages_compose None None 1 0 sample_store); lia. Defined.

Lemma list_products_sound_witness :
  exists ds r,
    fst (list_products (Some "SHIRT") (Some "M") 10 0 sample_store) = Ok r /\
    product_list_data r = map listed ds /\
    forall d, d ∈ ds ->
              d ∈ products_collection sample_store /\
              (forall v, Some "M" = Some v -> v <> EmptyString -> has_size v (body d)).
Proof. apply (list_products_sound (Some "SHIRT") (Some "M") 10 0 sample_store); lia. Defined.

Lemma created_product_listed_witness :
  exists r,
    fst (list_products None None 10 0
                       (snd (create_product 7 scarf_id scarf sample_store))) = Ok r /\
    {| list_item_id := oid_str scarf_id;
       list_item_name := name scarf;
       list_item_price := price scarf |} ∈ product_list_data r /\
    length (product_list_data r) = S (length (products_collection sample_store)).
Proof.
  apply (created_product_listed 7 scarf_id scarf 10 sample_store).
  - repeat constructor; simpl; lia.
  - simpl. lia.
Defined.

(** The name filter and the size filter together keep the shirt only. *)
Example list_products_both_filters :
  match fst (list_products (Some "SHIRT") (Some "M") 10 0 sample_store) with
  | Ok r => map list_item_name (product_list_data r)
  | Raise _ => []
  end = ["Shirt a.b"] /\
  match fst (list_products (Some "SHIRT") (Some "m") 10 0 sample_store) with
  | Ok r => map list_item_name (product_list_data r)
  | Raise _ => ["error"]
  end = [].
Proof. split; reflexivity. Qed.

Section UserOrdersMore.

Context `{ObjectIdOps}.

Lemma elem_of_user_orders user_id (o : doc OrderDict) l :
  o ∈ user_orders user_id l <-> o ∈ l /\ dict_userId (body o) = user_id.
Proof. unfold user_orders. by rewrite !list_elem_of_In, filter_In, String.eqb_eq. Qed.

(** X8: the orders returned are orders of the user asked for, each with
    the identifier and the total of a stored order of that user; another
    user's order is never returned. *)
Theorem get_user_orders_only_user user_id limit offset st r :
  fst (get_user_orders user_id limit offset st) = Ok r ->
  forall d, d ∈ order_list_data r ->
            exists o, o ∈ orders_collection st /\
                      dict_userId (body o) = user_id /\
                      detail_id d = oid_str (_id o) /\
                      detail_total d = dict_total (body o).
Proof.
  rewrite get_user_orders_cases.
  destruct (negb (bson_int offset && bson_int limit)); [done|].
  destruct ((offset <? 0) || (limit <=? 0)); [done|].
  simpl. intros [= <-] d Hd. simpl in Hd.
  apply list_elem_of_fmap in Hd as (o & -> & Ho).
  apply elem_of_page, elem_of_sort_by_id, elem_of_user_orders in Ho as [Ho Huser].
  by exists o.
Qed.

Lemma map_detail_nil {A} (g : A -> OrderDetail) (l : list A) : map g l = [] <-> l = [].
Proof. by destruct l. Qed.

(** X4: the orders of a page are stored orders of the user in ascending
    [_id] order, when the order on identifiers is total. *)
Theorem get_user_orders_ascending user_id limit offset st r :
  oid_leb_total ->
  fst (get_user_orders user_id limit offset st) = Ok r ->
  exists os,
    map detail_id (order_list_data r) = map (fun o => oid_str (_id o)) os /\
    Sorted (fun a b => oid_leb (_id a) (_id b) = true) os /\
    forall o, o ∈ os -> o ∈ user_orders user_id (orders_collection st).
Proof.
  intros Htotal. rewrite get_user_orders_cases.
  destruct (negb (bson_int offset && bson_int limit)); [done|].
  destruct ((offset <? 0) || (limit <=? 0)); [done|].
  simpl. intros [= <-]. exists (orders_page st user_id limit offset). simpl.
  split; [by rewrite map_map|]. unfold orders_page. split.
  - by apply Sorted_take, Sorted_drop, sort_by_id_sorted.
  - intros o Ho. apply elem_of_page in Ho. exact (proj1 (elem_of_sort_by_id _ _) Ho).
Qed.

(** X9: a page of orders never holds more than [limit] orders, and its
    [next] is absent exactly when the page that would follow is empty. *)
Theorem get_user_orders_next_page user_id limit offset st :
  1 <= limit -> 0 <= offset -> offset + limit < 2 ^ 63 ->
  exists r r',
    fst (get_user_orders user_id limit offset st) = Ok r /\
    fst (get_user_orders user_id limit (offset + limit) st) = Ok r' /\
    Z.of_nat (length (order_list_data r)) <= limit /\
    (page_next (order_list_page r) = None <-> order_list_data r' = []).
Proof.
  intros Hlimit Hoffset Hfit.
  rewrite (get_user_orders_eq user_id limit offset st) by lia.
  rewrite (get_user_orders_eq user_id limit (offset + limit) st) by lia.
  do 2 eexists. split; [done|]. split; [done|]. simpl. unfold orders_page. split.
  - rewrite length_map, length_take. lia.
  - rewrite map_detail_nil, next_page_empty, sort_by_id_length by done.
    destruct (Z.ltb_spec (offset + limit)
                (Z.of_nat (length (user_orders user_id (orders_collection st))))).
    + split; [done | lia].
    + split; [lia | done].
Qed.

Lemma NoDup_fmap_elem_inj {A B} (f : A -> B) (l : list A) x y :
  NoDup (map f l) -> x ∈ l -> y ∈ l -> f x = f y -> x = y.
Proof.
  induction l as [|a l IH]; intros Hnd Hx Hy Hxy; [by apply not_elem_of_nil in Hx|].
  simpl in Hnd. apply NoDup_cons in Hnd as [Ha Hnd].
  apply elem_of_cons in Hx as [->|Hx]; apply elem_of_cons in Hy as [->|Hy].
  - done.
  - exfalso. apply Ha. rewrite Hxy. apply list_elem_of_fmap. by exists y.
  - exfalso. apply Ha. rewrite <- Hxy. apply list_elem_of_fmap. by exists x.
  - by apply IH.
Qed.

Lemma product_with_id_Some i products p :
  product_with_id i products = Some p -> p ∈ products /\ _id p = i.
Proof.
  unfold product_with_id. intros Hfind. apply find_some in Hfind as [Hin Hid].
  split; [by apply list_elem_of_In | by apply bool_decide_eq_true in Hid].
Qed.

(** The lines of a new order whose items are canonical are all returned. *)
Lemma canonical_lines_returned st o : forall items lines,
  NoDup (map (fun p => oid_str (_id p)) (products_collection st)) ->
  Forall2 (fun item line => check_item (products_collection st) item = Ok line)
          items lines ->
  Forall canonical items ->
  lines ⊆ dict_items (body o) ->
  Forall2 (returned_for st) items
    (omap (fun line =>
             match product_map_of (lookup_products (products_collection st) o)
                   !! line_productid line with
             | Some product_info =>
               Some {| productDetails :=
                         {| details_name := body product_info;
                            details_id := line_productid line |};
                       detail_qty := line_qty line |}
             | None => None
             end) lines).
Proof.
  intros items lines Hnd Hall. induction Hall as [|item line items lines Hline _ IH];
    intros Hcanon Hsub; [constructor|].
  apply Forall_cons in Hcanon as [(i & Hi & Hstr) Hcanon].
  assert (line ∈ dict_items (body o)) as Hin by (apply Hsub; by left).
  assert (lines ⊆ dict_items (body o)) as Hrest.
  { intros x Hx. apply Hsub. by right. }
  unfold check_item in Hline. rewrite Hi in Hline.
  destruct (product_with_id i (products_collection st)) as [p|] eqn:Hp; [|done].
  destruct (float_mul_int (dict_price (body p)) (qty item)) as [t|]; [|done].
  injection Hline as <-. simpl in *.
  apply product_with_id_Some in Hp as Hp'. destruct Hp' as [Hpin Hpid].
  assert ({| _id := _id p; body := dict_name (body p) |}
            ∈ lookup_products (products_collection st) o) as Hjoined.
  { apply elem_of_lookup_products. exists p. split; [done|]. split; [|done].
    rewrite Hpid, Hstr. apply list_elem_of_fmap. eexists. split; [|exact Hin]. done. }
  unfold product_map_of.
  destruct (foldl _ ∅ (lookup_products (products_collection st) o) !! productid item)
    as [p'|] eqn:Hk.
  - apply product_map_from_Some in Hk as [[Hin' Hstr']|Hk]; [|by rewrite lookup_empty in Hk].
    apply elem_of_lookup_products in Hin' as (p'' & Hp'' & _ & ->). simpl in *.
    assert (p'' = p) as ->.
    { apply (NoDup_fmap_elem_inj (fun p => oid_str (_id p)) (products_collection st));
        [done..|]. by rewrite Hstr', Hpid, Hstr. }
    constructor; [|by apply IH].
    split; [done|]. split; [done|]. exists p. split; [|done]. by exists i.
  - exfalso. apply (product_map_from_None _ _ _ Hk _ Hjoined). simpl.
    by rewrite Hpid.
Qed.

(** X10: an order created from items with canonical identifiers and
    quantities the driver can encode reads back whole: when the identifiers
    of the products have distinct texts and the user's orders fit on the
    first page, [get_user_orders] returns the new order with its identifier,
    the total stored at creation, and one detail per item, in order, with
    the product's name. *)
Theorem created_order_returned now new_id order limit st :
  Forall (accepted st) (items order) ->
  Forall (fun item => - 2 ^ 63 <= qty item < 2 ^ 63) (items order) ->
  Forall canonical (items order) ->
  NoDup (map (fun p => oid_str (_id p)) (products_collection st)) ->
  Z.of_nat (length (user_orders (userId order) (orders_collection st))) < limit < 2 ^ 63 ->
  exists d detail r,
    orders_collection (snd (create_order now new_id order st)) =
    orders_collection st ++ [{| _id := new_id; body := d |}] /\
    fst (get_user_orders (userId order) limit 0
                         (snd (create_order now new_id order st))) = Ok r /\
    detail ∈ order_list_data r /\
    detail_id detail = oid_str new_id /\
    detail_total detail = dict_total d /\
    Forall2 (returned_for st) (items order) (detail_items detail).
Proof.
  intros Hacc Hfit Hcanon Hnd Hlen. apply accepted_lines in Hacc as [lines Hlines].
  rewrite (create_order_success now new_id order st lines Hlines Hfit). simpl.
  rewrite get_user_orders_eq by lia. simpl.
  set (new := {| _id := new_id;
                 body := {| dict_userId := userId order;
                            dict_items := lines;
                            dict_total := float_sum (map line_item_total lines);
                            dict_status := "created";
                            order_created_at := now |} |}).
  exists (body new),
    (order_detail_of {| order_doc := new;
                        product_details := lookup_products (products_collection st) new |}).
  eexists. split; [done|]. split; [done|]. split; [|split; [done|split; [done|]]].
  - simpl. apply list_elem_of_fmap. exists new. split; [done|].
    unfold orders_page. simpl. rewrite drop_0.
    assert (user_orders (userId order) (orders_collection st ++ [new])
            = user_orders (userId order) (orders_collection st) ++ [new]) as Huser.
    { unfold user_orders. rewrite List.filter_app. simpl. by rewrite String.eqb_refl. }
    rewrite Huser, take_ge by (rewrite sort_by_id_length, length_app; simpl; lia).
    apply elem_of_sort_by_id, elem_of_app. right. by left.
  - simpl. by apply (canonical_lines_returned st new (items order) lines).
Qed.

(** X11: a line whose [productid] denotes an identifier but is not the
    text [str] gives for it is never returned, provided the texts of the
    stored products' identifiers denote those identifiers. *)
Theorem noncanonical_line_dropped user_id limit offset st r k i :
  (forall p, p ∈ products_collection st -> ObjectId (oid_str (_id p)) = Some (_id p)) ->
  ObjectId k = Some i ->
  oid_str i <> k ->
  fst (get_user_orders user_id limit offset st) = Ok r ->
  forall d item,
    d ∈ order_list_data r -> item ∈ detail_items d ->
    details_id (productDetails item) <> k.
Proof.
  intros Hround Hk Hstr. rewrite get_user_orders_cases.
  destruct (negb (bson_int offset && bson_int limit)); [done|].
  destruct ((offset <? 0) || (limit <=? 0)); [done|]. simpl.
  intros [= <-] d item Hd Hitem Hid. simpl in Hd.
  apply list_elem_of_fmap in Hd as (o & -> & _). simpl in Hitem.
  apply list_elem_of_omap in Hitem as (line & _ & Hline). unfold product_map_of in Hline.
  destruct (foldl _ ∅ (lookup_products (products_collection st) o) !! line_productid line)
    as [p'|] eqn:Hmap; [|done].
  injection Hline as <-. simpl in Hid.
  apply product_map_from_Some in Hmap as [[Hin Hp']|Hmap]; [|by rewrite lookup_empty in Hmap].
  apply elem_of_lookup_products in Hin as (p & Hp & _ & ->). simpl in Hp'.
  apply Hround in Hp. rewrite Hp', Hid, Hk in Hp. injection Hp as ->.
  apply Hstr. by rewrite Hp', Hid.
Qed.

End UserOrdersMore.

Lemma get_user_orders_only_user_witness :
  exists r,
    fst (get_user_orders "u2" 10 0 store_with_two_orders) = Ok r /\
    forall d, d ∈ order_list_data r ->
              exists o, o ∈ orders_collection store_with_two_orders /\
                        dict_userId (body o) = "u2" /\
                        detail_id d = oid_str (_id o) /\
                        detail_total d = dict_total (body o).
Proof.
  eexists. split; [reflexivity|].
  apply (get_user_orders_only_user "u2" 10 0 store_with_two_orders). reflexivity.
Defined.

Lemma get_user_orders_next_page_witness :
  exists r r',
    fst (get_user_orders "u1" 1 0 store_with_two_orders) = Ok r /\
    fst (get_user_orders "u1" 1 (0 + 1) store_with_two_orders) = Ok r' /\
    Z.of_nat (length (order_list_data r)) <= 1 /\
    (page_next (order_list_page r) = None <-> order_list_data r' = []).
Proof. apply (get_user_orders_next_page "u1" 1 0 store_with_two_orders); lia. Defined.

Lemma get_user_orders_ascending_witness :
  exists r os,
    fst (get_user_orders "u1" 10 0 store_with_three_orders) = Ok r /\
    map detail_id (order_list_data r) = map (fun o => oid_str (_id o)) os /\
    Sorted (fun a b => oid_leb (_id a) (_id b) = true) os /\
    forall o, o ∈ os -> o ∈ user_orders "u1" (orders_collection store_with_three_orders).
Proof.
  eexists.
  destruct (get_user_orders_ascending "u1" 10 0 store_with_three_orders _
              String.leb_total eq_refl) as (os & Hids & Hsorted & Hstored).
  exists os. split; [reflexivity|]. split; [exact Hids|]. split; assumption.
Defined.

(** The later of two orders of a user comes first when its identifier is
    the smaller one. *)
Example get_user_orders_by_id :
  map (fun o => (oid_str (_id o), order_created_at (body o)))
      (user_orders "u1" (orders_collection store_with_three_orders))
  = [("64b7f0c2a1b2c3d4e5f60100", 3); ("64b7f0c2a1b2c3d4e5f600ff", 5)] /\
  match fst (get_user_orders "u1" 10 0 store_with_three_orders) with
  | Ok r => map detail_id (order_list_data r)
  | Raise _ => []
  end = ["64b7f0c2a1b2c3d4e5f600ff"; "64b7f0c2a1b2c3d4e5f60100"].
Proof. split; reflexivity. Qed.

Lemma sample_items_canonical : canonical two_shirts /\ canonical three_caps.
Proof. split; (eexists; split; reflexivity). Qed.

Lemma sample_products_distinct :
  NoDup (map (fun p => oid_str (_id p)) (products_collection sample_store)).
Proof. apply (bool_decide_unpack _). by vm_compute. Qed.

Lemma created_order_returned_witness :
  exists d detail r,
    orders_collection (snd (create_order 7 new_order_id sample_order sample_store)) =
    orders_collection sample_store ++ [{| _id := new_order_id; body := d |}] /\
    fst (get_user_orders (userId sample_order) 10 0
                         (snd (create_order 7 new_order_id sample_order sample_store)))
    = Ok r /\
    detail ∈ order_list_data r /\
    detail_id detail = oid_str new_order_id /\
    detail_total detail = dict_total d /\
    Forall2 (returned_for sample_store) (items sample_order) (detail_items detail).
Proof.
  apply (created_order_returned 7 new_order_id sample_order 10 sample_store).
  - repeat constructor; apply sample_items_accepted.
  - repeat constructor; simpl; lia.
  - repeat constructor; apply sample_items_canonical.
  - apply sample_products_distinct.
  - simpl. lia.
Defined.

Lemma sample_products_round_trip p :
  p ∈ products_collection store_with_two_orders ->
  ObjectId (oid_str (_id p)) = Some (_id p).
Proof.
  intros Hp. simpl in Hp.
  repeat (apply elem_of_cons in Hp as [->|Hp]; [reflexivity|]).
  by apply not_elem_of_nil in Hp.
Qed.

Lemma noncanonical_line_dropped_witness :
  exists r,
    fst (get_user_orders "u2" 10 0 store_with_two_orders) = Ok r /\
    forall d item,
      d ∈ order_list_data r -> item ∈ detail_items d ->
      details_id (productDetails item) <> productid upper_case_item.
Proof.
  eexists. split; [reflexivity|].
  apply (noncanonical_line_dropped "u2" 10 0 store_with_two_orders _
                                   (productid upper_case_item) shirt_id).
  - apply sample_products_round_trip.
  - reflexivity.
  - discriminate.
  - reflexivity.
Defined.

(** An order placed with the shirt's identifier in upper case is accepted
    at the shirt's price, and reads back with its total and no line. *)
Example upper_case_order_round_trip :
  let created :=
    create_order 9 new_order_id {| userId := "u2"; items := [upper_case_item] |}
                 sample_store in
  fst created = Ok {| order_response_id := oid_str new_order_id |} /\
  map (fun o => dict_total (body o)) (orders_collection (snd created)) = [10%float] /\
  match fst (get_user_orders "u2" 10 0 (snd created)) with
  | Ok r => map (fun d => (length (detail_items d), detail_total d)) (order_list_data r)
  | Raise _ => []
  end = [(0%nat, 10%float)].
Proof. vm_compute. repeat split. Qed.

Section ServiceInvariants.

Context `{ObjectIdOps}.

Lemma concat_imap_nil {A B} (l : list A) : forall (f : nat -> A -> list B),
  concat (imap f l) = [] -> Forall (fun x => exists i, f i x = []) l.
Proof.
  induction l as [|x l IH]; intros f Hnil; [constructor|].
  rewrite imap_cons in Hnil. simpl in Hnil. apply app_eq_nil in Hnil as [Hx Hl].
  constructor; [by exists 0%nat|].
  apply IH in Hl. eapply Forall_impl; [exact Hl|]. intros y [i Hi]. by exists (S i).
Qed.

Lemma concat_imap_not_nil {A B} (P : A -> Prop) (l : list A) :
  forall (f : nat -> A -> list B),
    (forall i x, P x -> f i x <> []) -> Exists P l -> concat (imap f l) <> [].
Proof.
  induction l as [|x l IH]; intros f Hf Hex; [by apply Exists_nil in Hex|].
  rewrite imap_cons. simpl. intros Hnil. apply app_eq_nil in Hnil as [Hx Hl].
  apply Exists_cons in Hex as [Hex|Hex]; [by apply (Hf 0%nat x)|].
  apply (IH (f ∘ S)); [|done..]. intros i y. apply Hf.
Qed.

Lemma validate_Product_nil product :
  validate_Product product = [] ->
  PrimFloat.ltb PrimFloat.zero (price product) = true /\
  Forall (fun s => 0 <= quantity s) (sizes product).
Proof.
  unfold validate_Product. intros Hnil. apply app_eq_nil in Hnil as [Hprice Hsizes].
  split; [by destruct (PrimFloat.ltb PrimFloat.zero (price product))|].
  apply concat_imap_nil in Hsizes. eapply Forall_impl; [exact Hsizes|].
  intros s [i Hs]. simpl in Hs. destruct (Z.ltb_spec (quantity s) 0); [done | lia].
Qed.

Lemma validate_CreateOrder_nil order :
  validate_CreateOrder order = [] -> Forall (fun item => 0 < qty item) (items order).
Proof.
  unfold validate_CreateOrder. intros Hnil. apply concat_imap_nil in Hnil.
  eapply Forall_impl; [exact Hnil|]. intros item [i Hitem]. simpl in Hitem.
  destruct (Z.ltb_spec 0 (qty item)); [lia | done].
Qed.

Lemma validated_cases {A} errors (run : Store -> response A * Store) st :
  (errors = [] /\ validated errors run st = run st) \/
  (errors <> [] /\ exists r, validated errors run st = (r, st)).
Proof.
  destruct errors as [|e errors]; [by left|]. right. split; [done|].
  unfold validated. destruct (forallb renderable (e :: errors)); by eexists.
Qed.

Lemma respond_store {A} status (m : M Store A) st : snd (respond status m st) = snd (m st).
Proof. unfold respond. by destruct (m st) as [[a|[s d|msg]] st']. Qed.

(** The read handlers keep both collections, whatever their parameters. *)
Lemma list_products_frame name size limit offset st :
  products_collection (snd (list_products name size limit offset st))
  = products_collection st /\
  orders_collection (snd (list_products name size limit offset st))
  = orders_collection st.
Proof.
  unfold list_products, try_except, bind, products_count_documents, products_find.
  destruct (compile_filter (build_query_filter name size)); cbn -[bson_int Z.abs]; [|done].
  destruct (offset <? 0); [done|].
  by destruct (negb (bson_int offset && bson_int (Z.abs limit))).
Qed.

Lemma get_user_orders_frame user_id limit offset st :
  products_collection (snd (get_user_orders user_id limit offset st))
  = products_collection st /\
  orders_collection (snd (get_user_orders user_id limit offset st))
  = orders_collection st.
Proof.
  rewrite get_user_orders_cases.
  destruct (negb (bson_int offset && bson_int limit)); [done|].
  by destruct ((offset <? 0) || (limit <=? 0)).
Qed.

Lemma handle_post_products now new_id product st :
  (products_collection (handle (post_products now new_id product) st)
   = products_collection st /\
   orders_collection (handle (post_products now new_id product) st)
   = orders_collection st) \/
  (validate_Product product = [] /\
   products_collection (handle (post_products now new_id product) st) =
   products_collection st ++
   [{| _id := new_id;
       body := {| dict_name := name product; dict_price := price product;
                  dict_sizes := sizes product; dict_created_at := now |} |}] /\
   orders_collection (handle (post_products now new_id product) st)
   = orders_collection st).
Proof.
  simpl. unfold POST_products.
  destruct (validated_cases (validate_Product product)
              (respond 201 (create_product now new_id product)) st)
    as [[Hok ->]|[_ [r ->]]]; [|by left].
  rewrite respond_store, create_product_cases.
  destruct (forallb _ (sizes product)); [by right | by left].
Qed.

Lemma handle_get_products name size limit offset st :
  products_collection (handle (get_products name size limit offset) st)
  = products_collection st /\
  orders_collection (handle (get_products name size limit offset) st)
  = orders_collection st.
Proof.
  simpl. unfold GET_products.
  destruct (Query "limit" 10 (Some 1) (Some 100) limit) as [lv le].
  destruct (Query "offset" 0 (Some 0) None offset) as [ov oe].
  destruct (validated_cases (le ++ oe) (respond 200 (list_products name size lv ov)) st)
    as [[_ ->]|[_ [r ->]]]; [|done].
  rewrite respond_store. apply list_products_frame.
Qed.

Lemma handle_post_orders now new_id order st :
  (products_collection (handle (post_orders now new_id order) st)
   = products_collection st /\
   orders_collection (handle (post_orders now new_id order) st)
   = orders_collection st) \/
  (validate_CreateOrder order = [] /\
   exists lines,
     Forall2 (fun item line => check_item (products_collection st) item = Ok line)
             (items order) lines /\
     products_collection (handle (post_orders now new_id order) st)
     = products_collection st /\
     orders_collection (handle (post_orders now new_id order) st) =
     orders_collection st ++
     [{| _id := new_id;
         body := {| dict_userId := userId order;
                    dict_items := lines;
                    dict_total := float_sum (map line_item_total lines);
                    dict_status := "created";
                    order_created_at := now |} |}]).
Proof.
  simpl. unfold POST_orders.
  destruct (validated_cases (validate_CreateOrder order)
              (respond 201 (create_order now new_id order)) st)
    as [[Hok ->]|[_ [r ->]]]; [|by left].
  rewrite respond_store.
  destruct (first_failure_split st (items order))
    as [[lines Hl]|(pre & lines & bad & post & e & Hitems & Hpre & Hbad)].
  - rewrite (create_order_checked now new_id order st lines Hl).
    destruct (forallb bson_int (map qty (items order))); [|by left].
    right. split; [done|]. by exists lines.
  - rewrite (create_order_failure now new_id order st pre lines bad post e
               Hitems Hpre Hbad).
    by left.
Qed.

Lemma handle_get_orders user_id limit offset st :
  products_collection (handle (get_orders user_id limit offset) st)
  = products_collection st /\
  orders_collection (handle (get_orders user_id limit offset) st)
  = orders_collection st.
Proof.
  simpl. unfold GET_orders.
  destruct (Query "limit" 10 (Some 1) (Some 100) limit) as [lv le].
  destruct (Query "offset" 0 (Some 0) None offset) as [ov oe].
  destruct (validated_cases (le ++ oe) (respond 200 (get_user_orders user_id lv ov)) st)
    as [[_ ->]|[_ [r ->]]]; [|done].
  rewrite respond_store. apply get_user_orders_frame.
Qed.

(** Every request has one of the three effects. *)
Lemma handle_effect req st : effect st (handle req st).
Proof.
  destruct req as [now new_id product|name size limit offset
                   |now new_id order|user_id limit offset].
  - destruct (handle_post_products now new_id product st) as [[Hp Ho]|(Hok & Hp & Ho)].
    + by apply effect_none.
    + by eapply effect_product.
  - apply effect_none; apply handle_get_products.
  - destruct (handle_post_orders now new_id order st)
      as [[Hp Ho]|(Hok & lines & Hlines & Hp & Ho)].
    + by apply effect_none.
    + by eapply effect_order.
  - apply effect_none; apply handle_get_orders.
Qed.

(** X12: no request changes or removes a stored document, and a request
    adds at most one: a listing adds none, a product creation adds no order,
    and an order creation adds no product. *)
Theorem collections_append_only req st :
  exists added_products added_orders,
    products_collection (handle req st) = products_collection st ++ added_products /\
    orders_collection (handle req st) = orders_collection st ++ added_orders /\
    (length added_products + length added_orders <= 1)%nat /\
    match req with
    | post_products _ _ _ => added_orders = []
    | post_orders _ _ _ => added_products = []
    | get_products _ _ _ _ | get_orders _ _ _ => added_products = [] /\ added_orders = []
    end.
Proof.
  destruct req as [now new_id product|name size limit offset
                   |now new_id order|user_id limit offset].
  - destruct (handle_post_products now new_id product st)
      as [[-> ->]|(_ & -> & ->)].
    + exists [], []. rewrite !app_nil_r. repeat split; try done; simpl; lia.
    + eexists [_], []. split; [reflexivity|]. split; [by rewrite app_nil_r|].
      split; [simpl; lia | reflexivity].
  - destruct (handle_get_products name size limit offset st) as [-> ->].
    exists [], []. rewrite !app_nil_r. repeat split; try done; simpl; lia.
  - destruct (handle_post_orders now new_id order st)
      as [[-> ->]|(_ & lines & _ & -> & ->)].
    + exists [], []. rewrite !app_nil_r. repeat split; try done; simpl; lia.
    + eexists [], [_]. split; [by rewrite app_nil_r|]. split; [reflexivity|].
      split; [simpl; lia | reflexivity].
  - destruct (handle_get_orders user_id limit offset st) as [-> ->].
    exists [], []. rewrite !app_nil_r. repeat split; try done; simpl; lia.
Qed.

Lemma product_with_id_app i products extra p :
  product_with_id i products = Some p ->
  product_with_id i (products ++ extra) = Some p.
Proof.
  unfold product_with_id. induction products as [|d products IH]; simpl; [done|].
  by destruct (bool_decide (_id d = i)).
Qed.

Lemma line_valid_app products extra line :
  line_valid products line -> line_valid (products ++ extra) line.
Proof.
  intros (Hqty & i & p & Hi & Hp & Hprice & Htotal). split; [done|].
  exists i, p. split; [done|]. split; [by apply product_with_id_app | done].
Qed.

Lemma checked_line_valid products item line :
  0 < qty item -> check_item products item = Ok line -> line_valid products line.
Proof.
  unfold check_item, line_valid. intros Hqty Hline.
  destruct (ObjectId (productid item)) as [i|] eqn:Hi; [|done].
  destruct (product_with_id i products) as [p|] eqn:Hp; [|done].
  destruct (float_mul_int (dict_price (body p)) (qty item)) as [t|] eqn:Ht; [|done].
  injection Hline as <-. simpl. split; [done|]. by exists i, p.
Qed.

(** The invariant of the collections. *)
Lemma reachable_invariant st :
  reachable st ->
  Forall (fun p => product_valid (body p)) (products_collection st) /\
  Forall (fun o => order_valid (products_collection st) (body o)) (orders_collection st).
Proof.
  induction 1 as [|req st Hreach [IHp IHo]]; [by split; constructor|].
  destruct (handle_effect req st) as [Hp Ho|now new_id product Hok Hp Ho
                                      |now new_id order lines Hok Hlines Hp Ho];
    rewrite Hp, Ho.
  - done.
  - split.
    + apply Forall_app. split; [done|]. constructor; [|constructor].
      by apply validate_Product_nil.
    + eapply Forall_impl; [exact IHo|]. intros o (Hstatus & Htotal & Hlinesv).
      split; [done|]. split; [done|].
      eapply Forall_impl; [exact Hlinesv|]. intros line. apply line_valid_app.
  - split; [done|]. apply Forall_app. split; [done|]. constructor; [|constructor].
    simpl. split; [done|]. split; [done|].
    apply validate_CreateOrder_nil in Hok. clear Hp Ho.
    induction Hlines as [|item line items lines Hline _ IH]; [constructor|].
    apply Forall_cons in Hok as [Hqty Hok]. constructor; [|by apply IH].
    by apply (checked_line_valid _ item).
Qed.

(** X13: in every store the service can reach, each product has a price
    above 0 and no negative quantity. *)
Theorem reachable_products_valid st :
  reachable st ->
  forall p, p ∈ products_collection st -> product_valid (body p).
Proof.
  intros Hreach. apply Forall_forall. by apply reachable_invariant.
Qed.

(** X14: in every store the service can reach, each line of each order
    has a positive quantity, refers to a product that is in the products
    collection, carries that product's price, and has [price * qty] as its
    line total. *)
Theorem reachable_orders_reference_products st :
  reachable st ->
  forall o line,
    o ∈ orders_collection st -> line ∈ dict_items (body o) ->
    line_valid (products_collection st) line.
Proof.
  intros Hreach o line Ho Hline. apply reachable_invariant in Hreach as [_ Horders].
  apply (proj1 (Forall_forall _ _) Horders) in Ho as (_ & _ & Hlines).
  by apply (proj1 (Forall_forall _ _) Hlines).
Qed.

(** X15: in every store the service can reach, each order has status
    ["created"] and a total that is the sum of its line totals, added from
    0.0 in the order of the lines. *)
Theorem reachable_orders_total st :
  reachable st ->
  forall o, o ∈ orders_collection st ->
            dict_status (body o) = "created" /\
            dict_total (body o) = float_sum (map line_item_total (dict_items (body o))).
Proof.
  intros Hreach o Ho. apply reachable_invariant in Hreach as [_ Horders].
  by apply (proj1 (Forall_forall _ _) Horders) in Ho as (Hstatus & Htotal & _).
Qed.

(** X16: a body that violates a field constraint is refused before the
    handler runs, and the store is left as it was: with 422 for an order
    with an item whose [qty] is not positive, and for a product whose
    [price] is a number not above 0 or one of whose [quantity] is negative
    (the price being a number or above 0); with 500 for a product whose
    [price] is NaN or the negative infinity, which the error report cannot
    render. *)
Theorem invalid_bodies_rejected now new_id st :
  (forall order,
     Exists (fun item => qty item <= 0) (items order) ->
     exists errors,
       POST_orders now new_id order st = (ValidationErrorResponse 422 errors, st)) /\
  (forall product,
     PrimFloat.is_finite (price product) = true \/
     PrimFloat.ltb PrimFloat.zero (price product) = true ->
     PrimFloat.ltb PrimFloat.zero (price product) = false \/
     Exists (fun s => quantity s < 0) (sizes product) ->
     exists errors,
       POST_products now new_id product st = (ValidationErrorResponse 422 errors, st)) /\
  (forall product,
     PrimFloat.is_finite (price product) = false ->
     PrimFloat.ltb PrimFloat.zero (price product) = false ->
     POST_products now new_id product st =
     (ErrorResponse 500 "Internal Server Error", st)).
Proof.
  split; [|split].
  - intros order Hbad. exists (validate_CreateOrder order). unfold POST_orders.
    apply validated_errors.
    + unfold validate_CreateOrder.
      apply (concat_imap_not_nil (fun item => qty item <= 0)); [|done].
      intros i item Hqty. simpl. destruct (Z.ltb_spec 0 (qty item)); [lia | done].
    + unfold validate_CreateOrder. apply forallb_forall. intros e He.
      apply in_concat in He as (l & Hl & He). apply list_elem_of_In in Hl.
      apply elem_of_lookup_imap in Hl as (i & item & -> & _).
      destruct (0 <? qty item); [done|]. by destruct He as [<-|[]].
  - intros product Hnum Hbad. exists (validate_Product product). unfold POST_products.
    apply validated_errors.
    + unfold validate_Product. intros Hnil.
      apply app_eq_nil in Hnil as [Hprice Hsizes]. destruct Hbad as [Hbad|Hbad].
      * by rewrite Hbad in Hprice.
      * revert Hsizes. apply (concat_imap_not_nil (fun s => quantity s < 0)); [|done].
        intros i s Hq. simpl. destruct (Z.ltb_spec (quantity s) 0); [done | lia].
    + unfold validate_Product. rewrite forallb_app. apply andb_true_iff. split.
      * destruct (PrimFloat.ltb PrimFloat.zero (price product)); [done|].
        destruct Hnum as [Hnum|Hnum]; [|done]. simpl. unfold renderable. simpl.
        by rewrite Hnum.
      * apply forallb_forall. intros e He.
        apply in_concat in He as (l & Hl & He). apply list_elem_of_In in Hl.
        apply elem_of_lookup_imap in Hl as (i & sz & -> & _).
        destruct (quantity sz <? 0); [|done]. by destruct He as [<-|[]].
  - intros product Hnan Hprice. unfold POST_products, validate_Product, validated.
    rewrite Hprice. cbn -[forallb]. unfold forallb at 1. fold (forallb renderable).
    unfold renderable at 1. simpl. by rewrite Hnan.
Qed.

End ServiceInvariants.

Lemma store_after_two_posts_reachable : reachable store_after_two_posts.
Proof. unfold store_after_two_posts. apply reachable_handle, reachable_handle, reachable_empty. Qed.

(** The store reached by the two requests holds the scarf and one order of
    two scarves at 3.00, total 6.00. *)
Example store_after_two_posts_content :
  map (fun p => dict_name (body p)) (products_collection store_after_two_posts)
  = ["Scarf"] /\
  map (fun o => (length (dict_items (body o)), dict_total (body o)))
      (orders_collection store_after_two_posts) = [(1%nat, 6%float)].
Proof. vm_compute. split; reflexivity. Qed.

Lemma reachable_products_valid_witness :
  Forall (fun p => product_valid (body p)) (products_collection store_after_two_posts).
Proof.
  apply Forall_forall.
  apply (reachable_products_valid store_after_two_posts).
  apply store_after_two_posts_reachable.
Defined.

Lemma reachable_orders_reference_products_witness :
  Forall (fun o => Forall (line_valid (products_collection store_after_two_posts))
                          (dict_items (body o)))
         (orders_collection store_after_two_posts).
Proof.
  apply Forall_forall. intros o Ho. apply Forall_forall. intros line Hline.
  apply (reachable_orders_reference_products store_after_two_posts
           store_after_two_posts_reachable o line Ho Hline).
Defined.

Lemma reachable_orders_total_witness :
  Forall (fun o =>
            dict_status (body o) = "created" /\
            dict_total (body o) = float_sum (map line_item_total (dict_items (body o))))
         (orders_collection store_after_two_posts).
Proof.
  apply Forall_forall.
  apply (reachable_orders_total store_after_two_posts).
  apply store_after_two_posts_reachable.
Defined.

Lemma invalid_bodies_rejected_witness :
  (exists errors,
     POST_orders 7 new_order_id
                 {| userId := "u1"; items := [two_shirts; {| productid := cap_id; qty := 0 |}] |}
                 sample_store
     = (ValidationErrorResponse 422 errors, sample_store)) /\
  (exists errors,
     POST_products 7 scarf_id
                   {| name := "Scarf"; price := 0%float;
                      sizes := [{| size := "S"; quantity := 1 |}] |}
                   sample_store
     = (ValidationErrorResponse 422 errors, sample_store)) /\
  POST_products 7 scarf_id
                {| name := "Scarf"; price := PrimFloat.nan;
                   sizes := [{| size := "S"; quantity := 1 |}] |}
                sample_store
  = (ErrorResponse 500 "Internal Server Error", sample_store).
Proof.
  destruct (invalid_bodies_rejected 7 new_order_id sample_store) as [Horder _].
  destruct (invalid_bodies_rejected 7 scarf_id sample_store) as (_ & Hproduct & Hnan).
  split; [|split].
  - apply Horder. simpl. apply Exists_cons_tl, Exists_cons_hd. simpl. lia.
  - apply Hproduct; left; reflexivity.
  - apply Hnan; reflexivity.
Defined.

Section EdgeCases.

Context `{ObjectIdOps}.

Lemma select_length sel (l : list (doc ProductDict)) :
  (length (select sel l) <= length l)%nat.
Proof.
  unfold select. induction l as [|d l IH]; simpl; [done|].
  destruct (sel (body d)); simpl; lia.
Qed.

(** X17: an offset at or past the number of stored products that the
    driver can encode gives an empty page without [next]; its [previous] is
    still [offset - limit] clamped at 0, which is not brought back to the
    last page that has products.  An offset the driver cannot encode makes
    the request fail with 500. *)
Theorem list_products_past_end name size limit offset st :
  1 <= limit < 2 ^ 63 ->
  Z.of_nat (length (products_collection st)) <= offset ->
  (offset < 2 ^ 63 ->
   exists r,
     fst (list_products name size limit offset st) = Ok r /\
     product_list_data r = [] /\
     page_next (product_list_page r) = None /\
     page_previous (product_list_page r) =
     if decide (offset = 0) then None else Some (Z.max 0 (offset - limit))) /\
  (2 ^ 63 <= offset ->
   fst (list_products name size limit offset st) =
   Raise (HTTPException 500 ("Failed to fetch products: " +:+ bson_overflow_msg))).
Proof.
  intros Hlimit Hpast. destruct (compile_filter_total name size) as [sel Hsel]. split.
  - intros Hfit.
    pose proof (select_length sel (products_collection st)) as Hlen.
    rewrite (list_products_eq name size limit offset st sel) by (done || lia).
    eexists. split; [done|]. simpl. split; [|split].
    + rewrite drop_ge by (rewrite sort_by_id_length; lia). by rewrite take_nil.
    + destruct (Z.ltb_spec (offset + limit)
                  (Z.of_nat (length (select sel (products_collection st))))); [lia | done].
    + destruct (decide (offset = 0)) as [->|Hne]; [done|].
      destruct (Z.ltb_spec 0 offset); [done | lia].
  - intros Hbig. rewrite (list_products_unencodable name size limit offset st Hbig).
    by rewrite Hsel.
Qed.

Lemma user_orders_none user_id (l : list (doc OrderDict)) :
  (forall o, o ∈ l -> dict_userId (body o) <> user_id) -> user_orders user_id l = [].
Proof.
  unfold user_orders. induction l as [|o l IH]; intros Hnone; simpl; [done|].
  destruct (String.eqb_spec (dict_userId (body o)) user_id) as [Heq|_].
  - exfalso. by apply (Hnone o); [left|].
  - apply IH. intros o' Ho'. apply Hnone. by right.
Qed.

(** X18: asking for the orders of a user who has none is not an error:
    without parameters the answer is 200 with no orders and a page of limit
    10 that has neither [next] nor [previous]. *)
Theorem GET_orders_no_orders user_id st :
  (forall o, o ∈ orders_collection st -> dict_userId (body o) <> user_id) ->
  GET_orders user_id None None st =
  (Response 200
            {| order_list_data := [];
               order_list_page :=
                 {| page_next := None; page_limit := 10; page_previous := None |} |},
   record_calls [orders_count_documents_call; orders_aggregate_call] st).
Proof.
  intros Hnone.
  change (GET_orders user_id None None st)
    with (respond 200 (get_user_orders user_id 10 0) st).
  unfold respond. rewrite get_user_orders_eq by lia. unfold orders_page.
  by rewrite (user_orders_none user_id _ Hnone).
Qed.

End EdgeCases.

Lemma list_products_past_end_witness :
  (exists r,
     fst (list_products None None 10 25 sample_store) = Ok r /\
     product_list_data r = [] /\
     page_next (product_list_page r) = None /\
     page_previous (product_list_page r) =
     if decide (25 = 0) then None else Some (Z.max 0 (25 - 10))) /\
  fst (list_products None None 10 (2 ^ 63) sample_store) =
  Raise (HTTPException 500 ("Failed to fetch products: " +:+ bson_overflow_msg)).
Proof.
  split.
  - apply (list_products_past_end None None 10 25 sample_store); simpl; lia.
  - apply (list_products_past_end None None 10 (2 ^ 63) sample_store); simpl; lia.
Defined.

Lemma GET_orders_no_orders_witness :
  GET_orders "nobody" None None store_with_two_orders =
  (Response 200
            {| order_list_data := [];
               order_list_page :=
                 {| page_next := None; page_limit := 10; page_previous := None |} |},
   record_calls [orders_count_documents_call; orders_aggregate_call]
                store_with_two_orders).
Proof.
  apply (GET_orders_no_orders "nobody" store_with_two_orders).
  intros o Ho. simpl in Ho.
  repeat (apply elem_of_cons in Ho as [->|Ho]; [discriminate|]).
  by apply not_elem_of_nil in Ho.
Defined.
